(** * Crypto tax economy monitor: token health and sustainability analytics

    A shallow embedding of [crypto_monitor.py] (class [CryptoMonitor]) and
    [finvesta_integration.py] (class [FinvestaMonitor]), followed by the
    properties of the analytics engine that were checked against it.

    Modelling conventions.
    - A Python/numpy float is a value of [float]: a real number or one of
      the IEEE special values [PInf], [NInf], [NaN].  Arithmetic on finite
      values is exact (rounding, overflow and signed zeros are not
      modelled); the special values follow the IEEE rules that numpy
      applies, in particular a numpy division by zero yields an infinity or
      NaN and raises nothing.
    - A pandas DataFrame is the list of its rows, a Series the list of its
      values.
    - [requests.get] is an oracle [requests_get] from the requests sent so
      far and the URL to a response; the monitor state records every
      request, so that "no request was made" can be stated.
    - [print] and [datetime.now()] are left out: no report field other
      than [timestamp] depends on them. *)

From Stdlib Require Import Reals Lra Lia ZArith Sorted.
From stdpp Require Import gmap strings pretty list.

(** ** Floats *)

#[global] Instance Rlt_decision : RelDecision Rlt := Rlt_dec.
#[global] Instance Rle_decision : RelDecision Rle := Rle_dec.
#[global] Instance Rgt_decision : RelDecision Rgt := Rgt_dec.
#[global] Instance Rge_decision : RelDecision Rge := Rge_dec.
#[global] Instance Req_decision : EqDecision R := Req_dec_T.

Inductive float : Type :=
  | Fin (r : R)
  | PInf
  | NInf
  | NaN.

Module F.

(** The infinity or NaN that [a / 0] and [a * inf] evaluate to. *)
Definition signed_inf (a : R) : float :=
  if decide (0 < a)%R then PInf
  else if decide (a < 0)%R then NInf
  else NaN.

Definition neg (x : float) : float :=
  match x with
  | Fin a => Fin (- a)
  | PInf => NInf
  | NInf => PInf
  | NaN => NaN
  end.

Definition add (x y : float) : float :=
  match x, y with
  | Fin a, Fin b => Fin (a + b)
  | NaN, _ | _, NaN => NaN
  | PInf, NInf | NInf, PInf => NaN
  | PInf, _ | _, PInf => PInf
  | NInf, _ | _, NInf => NInf
  end.

Definition sub (x y : float) : float := add x (neg y).

Definition mul (x y : float) : float :=
  match x, y with
  | Fin a, Fin b => Fin (a * b)
  | NaN, _ | _, NaN => NaN
  | PInf, Fin b | Fin b, PInf => signed_inf b
  | NInf, Fin b | Fin b, NInf => neg (signed_inf b)
  | PInf, PInf | NInf, NInf => PInf
  | PInf, NInf | NInf, PInf => NInf
  end.

(** numpy's true division: [a / 0] is an infinity of the sign of [a], or
    NaN when [a] is 0 as well. *)
Definition div (x y : float) : float :=
  match x, y with
  | Fin a, Fin b => if decide (b = 0%R) then signed_inf a else Fin (a / b)
  | NaN, _ | _, NaN => NaN
  | Fin _, (PInf | NInf) => Fin 0
  | (PInf | NInf), (PInf | NInf) => NaN
  | PInf, Fin b => if decide (0 <= b)%R then PInf else NInf
  | NInf, Fin b => if decide (0 <= b)%R then NInf else PInf
  end.

(** Comparisons: every comparison with NaN is false. *)
Definition ltb (x y : float) : bool :=
  match x, y with
  | Fin a, Fin b => bool_decide (a < b)%R
  | NaN, _ | _, NaN => false
  | _, NInf | PInf, _ => false
  | NInf, _ | _, PInf => true
  end.

Definition leb (x y : float) : bool :=
  match x, y with
  | Fin a, Fin b => bool_decide (a <= b)%R
  | NaN, _ | _, NaN => false
  | NInf, _ | _, PInf => true
  | _, NInf | PInf, _ => false
  end.

Definition gtb (x y : float) : bool := ltb y x.
Definition geb (x y : float) : bool := leb y x.

Definition is_finite (x : float) : bool :=
  match x with Fin _ => true | _ => false end.

(** Python's [sum(xs)]: starts from 0 and adds from the left. *)
Definition sum (xs : list float) : float := foldl add (Fin 0) xs.

End F.

(** ** pandas Series and DataFrame *)

Module Series.

Definition total (xs : list R) : R := foldr Rplus 0%R xs.

(** [Series.mean()]: NaN on an empty series. *)
Definition mean (xs : list R) : float :=
  match xs with
  | [] => NaN
  | _ => Fin (total xs / INR (length xs))
  end.

(** Sum of squared deviations from [m]. *)
Definition sq_dev (m : R) (xs : list R) : R :=
  total (map (fun x => (x - m) * (x - m))%R xs).

(** [Series.std()]: pandas' default [ddof=1], the sample standard
    deviation; NaN when there are not more than [ddof] values. *)
Definition std (xs : list R) : float :=
  if decide (length xs <= 1)%nat then NaN
  else
    let m := (total xs / INR (length xs))%R in
    Fin (sqrt (sq_dev m xs / INR (length xs - 1))).

End Series.

(** One row of the merged market chart (columns [timestamp], [price],
    [volume]; [date] is a function of [timestamp]). *)
Record row : Type := Row {
  timestamp : Z;
  price : R;
  volume : R
}.

Definition DataFrame : Type := list row.

(** [prices.merge(volumes, on=["timestamp", "date"])]: the inner join, in
    the order of the left frame. *)
Definition merge (prices total_volumes : list (Z * R)) : DataFrame :=
  flat_map
    (fun p => map (fun v => Row (fst p) (snd p) (snd v))
                  (filter (fun v => fst v = fst p) total_volumes))
    prices.

(** One transaction of a wallet, as [get_pulsechain_wallet] returns it
    (column [datetime] is a function of [timeStamp]). *)
Record transaction : Type := Tx {
  hash : string;
  value : Z;
  value_eth : R;
  from : string;
  to : string;
  timeStamp : Z
}.

(** One entry of the explorer's [result] array. *)
Record raw_transaction : Type := RawTx {
  raw_hash : string;
  raw_value : Z;
  raw_from : string;
  raw_to : string;
  raw_timeStamp : Z
}.

(** ** The network *)

Inductive json : Type :=
  | MarketChart (prices total_volumes : list (Z * R))
  | TxList (status : string) (result : list raw_transaction)
  | OtherJson.

Inductive response : Type :=
  | ConnectionError
  | Http (status_code : Z) (body : json).

(** ** str.lower on ASCII *)

Definition lower_ascii (c : Ascii.ascii) : Ascii.ascii :=
  let n := Ascii.nat_of_ascii c in
  if (65 <=? n)%nat && (n <=? 90)%nat then Ascii.ascii_of_nat (n + 32) else c.

Fixpoint lower (s : string) : string :=
  match s with
  | EmptyString => EmptyString
  | String c s' => String (lower_ascii c) (lower s')
  end.

(** ** Monitor state *)

Record monitor : Type := Monitor {
  tokens : list string;
  wallets : gmap string string;
  data_cache : gmap string DataFrame;
  tax_rates : gmap string R;
  roi_expectations : gmap string R;
  (** URLs passed to [requests.get] so far, oldest first. *)
  requests_sent : list string
}.

(** [CryptoMonitor.__init__] (the two rate tables belong to the subclass). *)
Definition CryptoMonitor_init : monitor :=
  Monitor ["hex"; "pls"] ∅ ∅ ∅ ∅ [].

(** [FinvestaMonitor.__init__] *)
Definition FinvestaMonitor_init : monitor :=
  Monitor ["hex"; "pls"; "finvesta"] ∅ ∅
    {["finvesta" := 0.05%R]} {["finvesta" := 0.01%R]} [].

Definition M (A : Type) : Type := monitor -> A * monitor.

Definition ret {A : Type} (a : A) : M A := fun s => (a, s).

Definition bind {A B : Type} (m : M A) (k : A -> M B) : M B :=
  fun s => let (a, s') := m s in k a s'.

Notation "x <- m ;; k" := (bind m (fun x => k))
  (at level 20, m at level 99, k at level 200, only parsing).

Definition get_self : M monitor := fun s => (s, s).

Definition set_data_cache (key : string) (df : DataFrame) : M unit :=
  fun s =>
    (tt, Monitor (tokens s) (wallets s) (<[key := df]> (data_cache s))
                 (tax_rates s) (roi_expectations s) (requests_sent s)).

(** ** class CryptoMonitor *)

Inductive volume_health : Type :=
  | Normal
  | VolumeDrop
  | HighActivity.

(** The strings the source stores in [volume_health]. *)
Definition volume_health_str (h : volume_health) : string :=
  match h with
  | Normal => "Normal"
  | VolumeDrop => "Warning: Volume drop"
  | HighActivity => "High volume activity"
  end.

Record health_report : Type := HealthReport {
  hr_token : string;
  current_price : float;
  price_change_30d : float;
  price_volatility : float;
  current_volume : float;
  volume_change_30d : float;
  hr_volume_health : volume_health
}.

Record sustainability_report : Type := SustainabilityReport {
  sr_token : string;
  daily_volume : float;
  tax_rate : float;
  daily_tax_revenue : float;
  total_supply_value : float;
  daily_roi : float;
  required_payouts : float;
  is_sustainable : bool;
  sustainability_ratio : float
}.

(** The [latest_transaction] entry of a wallet summary ([timestamp] is the
    formatted [datetime] of the row, a function of [timeStamp]). *)
Record latest_info : Type := LatestInfo {
  lt_hash : string;
  lt_value : R;
  lt_from : string;
  lt_to : string;
  lt_timestamp : Z
}.

Record wallet_summary : Type := WalletSummary {
  wallet : string;
  total_transactions : nat;
  incoming_transactions : nat;
  outgoing_transactions : nat;
  large_transactions : nat;
  latest_transaction : latest_info
}.

(** Truth value of an optional string argument: [None] and [""] are
    false. *)
Definition truthy (o : option string) : bool :=
  match o with
  | Some s => negb (String.eqb s "")
  | None => false
  end.

Definition coingecko_base_url : string := "https://api.coingecko.com/api/v3".
Definition pulsechain_base_url : string := "https://scan.pulsechain.com/api".

Definition cache_key (token_id : string) (days : Z) (vs_currency : string) : string :=
  token_id +:+ "_" +:+ pretty days +:+ "_" +:+ vs_currency.

Definition market_chart_url (token_id : string) (days : Z) (vs_currency : string) : string :=
  coingecko_base_url +:+ "/coins/" +:+ token_id +:+ "/market_chart?vs_currency="
    +:+ vs_currency +:+ "&days=" +:+ pretty days.

Definition txlist_url (wallet_address : string) : string :=
  pulsechain_base_url +:+ "?module=account&action=txlist&address=" +:+ wallet_address.

Section Monitor.

(** The response to a request, given the requests sent before it. *)
Variable requests_get : list string -> string -> response.

Definition http_get (url : string) : M response :=
  fun s =>
    (requests_get (requests_sent s) url,
     Monitor (tokens s) (wallets s) (data_cache s) (tax_rates s)
             (roi_expectations s) (requests_sent s ++ [url])).

Definition get_token_data (token_id : string) (days : Z) (vs_currency : string)
  : M (option DataFrame) :=
  let key := cache_key token_id days vs_currency in
  self <- get_self ;;
  match data_cache self !! key with
  | Some df => ret (Some df)
  | None =>
      r <- http_get (market_chart_url token_id days vs_currency) ;;
      match r with
      | Http status_code data =>
          if decide (status_code = 200%Z) then
            match data with
            | MarketChart prices total_volumes =>
                let result := merge prices total_volumes in
                stored <- set_data_cache key result ;;
                ret (Some result)
            | _ => ret None             (* KeyError, caught *)
            end
          else ret None
      | ConnectionError => ret None     (* exception, caught *)
      end
  end.

Definition to_transaction (t : raw_transaction) : transaction :=
  Tx (raw_hash t) (raw_value t) (IZR (raw_value t) / 1e18)
     (raw_from t) (raw_to t) (raw_timeStamp t).

Definition get_pulsechain_wallet (wallet_address : string)
  : M (option (list transaction)) :=
  r <- http_get (txlist_url wallet_address) ;;
  match r with
  | Http status_code data =>
      if decide (status_code = 200%Z) then
        match data with
        | TxList status result =>
            if String.eqb status "1" then
              match result with
              | [] => ret None          (* no column "timeStamp": KeyError *)
              | _ => ret (Some (map to_transaction result))
              end
            else ret None
        | _ => ret None                 (* KeyError, caught *)
        end
      else ret None
  | ConnectionError => ret None         (* exception, caught *)
  end.

Definition is_incoming (wallet_address : string) (t : transaction) : bool :=
  String.eqb (lower (to t)) (lower wallet_address).

Definition is_outgoing (wallet_address : string) (t : transaction) : bool :=
  String.eqb (lower (from t)) (lower wallet_address).

Definition is_large (threshold : R) (t : transaction) : bool :=
  bool_decide (Rabs (value_eth t) > threshold)%R.

Definition describe (t : transaction) : latest_info :=
  LatestInfo (hash t) (value_eth t) (from t) (to t) (timeStamp t).

(** The body of [check_wallet_activity] once the transactions are there. *)
Definition summarize (name wallet_address : string) (threshold : R)
    (transactions : list transaction) : option wallet_summary :=
  match transactions with
  | [] => None
  | latest_tx :: _ =>
      let incoming_txs := List.filter (is_incoming wallet_address) transactions in
      let outgoing_txs := List.filter (is_outgoing wallet_address) transactions in
      let large_txs := List.filter (is_large threshold) transactions in
      Some (WalletSummary name (length transactions) (length incoming_txs)
              (length outgoing_txs) (length large_txs) (describe latest_tx))
  end.

(** [wallet_address] after the lookup of [wallet_name] in [self.wallets]. *)
Definition resolve_address (self : monitor) (wallet_name wallet_address : option string)
  : option string :=
  match wallet_name with
  | Some n =>
      if truthy wallet_name then
        match wallets self !! n with
        | Some a => Some a
        | None => wallet_address
        end
      else wallet_address
  | None => wallet_address
  end.

(** [wallet_name or wallet_address] *)
Definition name_or_address (wallet_name : option string) (a : string) : string :=
  if truthy wallet_name then default a wallet_name else a.

Definition check_wallet_activity (wallet_name wallet_address : option string)
    (threshold : R) : M (option wallet_summary) :=
  self <- get_self ;;
  match resolve_address self wallet_name wallet_address with
  | Some a =>
      if truthy (Some a) then
        transactions <- get_pulsechain_wallet a ;;
        match transactions with
        | None => ret None
        | Some txs =>
            ret (summarize (name_or_address wallet_name a) a threshold txs)
        end
      else ret None
  | None => ret None
  end.

(** The body of [analyze_token_health] once the data is there. *)
Definition token_health (token_id : string) (data : DataFrame) : option health_report :=
  match data with
  | [] => None
  | first :: _ =>
      let latest := List.last data first in
      let prices := map price data in
      let volumes := map volume data in
      let current_price := Fin (price latest) in
      let avg_price := Series.mean prices in
      let price_change :=
        F.mul (F.div (F.sub current_price (Fin (price first))) (Fin (price first)))
              (Fin 100) in
      let current_volume := Fin (volume latest) in
      let avg_volume := Series.mean volumes in
      let volume_change :=
        F.mul (F.div (F.sub current_volume (Fin (volume first))) (Fin (volume first)))
              (Fin 100) in
      let volume_health :=
        if F.ltb current_volume (F.mul avg_volume (Fin 0.5)) then VolumeDrop
        else if F.gtb current_volume (F.mul avg_volume (Fin 2)) then HighActivity
        else Normal in
      let price_volatility :=
        F.mul (F.div (Series.std prices) avg_price) (Fin 100) in
      Some (HealthReport token_id current_price price_change price_volatility
              current_volume volume_change volume_health)
  end.

Definition analyze_token_health (token_id : string) : M (option health_report) :=
  data <- get_token_data token_id 30 "usd" ;;
  match data with
  | None => ret None
  | Some df => ret (token_health token_id df)
  end.

Definition check_sustainability (token_id : string)
    (daily_volume tax_rate total_supply_value daily_roi : float)
  : sustainability_report :=
  let daily_tax_revenue := F.mul daily_volume tax_rate in
  let required_payouts := F.mul total_supply_value daily_roi in
  let is_sustainable := F.geb daily_tax_revenue required_payouts in
  let sustainability_ratio :=
    if F.gtb required_payouts (Fin 0) then F.div daily_tax_revenue required_payouts
    else PInf in
  SustainabilityReport token_id daily_volume tax_rate daily_tax_revenue
    total_supply_value daily_roi required_payouts is_sustainable
    sustainability_ratio.

(** ** class FinvestaMonitor(CryptoMonitor) *)

Inductive health_status : Type :=
  | Critical
  | Warning
  | Healthy.

Definition health_status_str (h : health_status) : string :=
  match h with
  | Critical => "Critical: Unsustainable"
  | Warning => "Warning: Marginally Sustainable"
  | Healthy => "Healthy: Sustainable"
  end.

Record ecosystem_metrics : Type := EcosystemMetrics {
  total_volume : float;
  avg_price_change : float;
  sustainability_score : float;
  em_health_status : health_status
}.

Record ecosystem_health : Type := EcosystemHealth {
  eco_tokens : gmap string health_report;
  metrics : ecosystem_metrics
}.

(** The supply estimate, when there is data to estimate it from. *)
Definition token_sustainability (self : monitor) (token_id : string)
    (estimate_supply : bool) (token_data : DataFrame) : option sustainability_report :=
  match token_data with
  | [] => None
  | _ =>
      let avg_daily_volume := Series.mean (map volume token_data) in
      let tax_rate := Fin (default 0.05%R (tax_rates self !! token_id)) in
      let daily_roi := Fin (default 0.01%R (roi_expectations self !! token_id)) in
      let total_supply_value :=
        if estimate_supply then F.mul avg_daily_volume (Fin 10)
        else Fin 10000000 in
      Some (check_sustainability token_id avg_daily_volume tax_rate
              total_supply_value daily_roi)
  end.

Definition check_token_sustainability (token_id : string) (estimate_supply : bool)
  : M (option sustainability_report) :=
  token_data <- get_token_data token_id 30 "usd" ;;
  self <- get_self ;;
  match token_data with
  | None => ret None
  | Some df => ret (token_sustainability self token_id estimate_supply df)
  end.

(** The local variables of [analyze_multi_token_ecosystem] that its loop
    updates. *)
Record accumulators : Type := Acc {
  acc_tokens : gmap string health_report;
  acc_total_volume : float;
  price_changes : list float;
  sustainability_scores : list float
}.

Definition add_health (token_id : string) (h : option health_report)
    (a : accumulators) : accumulators :=
  match h with
  | Some h =>
      Acc (<[token_id := h]> (acc_tokens a))
          (F.add (acc_total_volume a) (current_volume h))
          (price_changes a ++ [price_change_30d h])
          (sustainability_scores a)
  | None => a
  end.

Definition add_sustainability (s : option sustainability_report)
    (a : accumulators) : accumulators :=
  match s with
  | Some s =>
      if F.gtb (sustainability_ratio s) (Fin 0) then
        Acc (acc_tokens a) (acc_total_volume a) (price_changes a)
            (sustainability_scores a ++ [sustainability_ratio s])
      else a
  | None => a
  end.

Fixpoint ecosystem_loop (token_ids : list string) (a : accumulators)
  : M accumulators :=
  match token_ids with
  | [] => ret a
  | token_id :: rest =>
      token_health <- analyze_token_health token_id ;;
      sustainability <- check_token_sustainability token_id true ;;
      ecosystem_loop rest
        (add_sustainability sustainability (add_health token_id token_health a))
  end.

(** [sum(xs) / len(xs) if xs else 0] *)
Definition average (xs : list float) : float :=
  match xs with
  | [] => Fin 0
  | _ => F.div (F.sum xs) (Fin (INR (length xs)))
  end.

Definition assess (score : float) : health_status :=
  if F.ltb score (Fin 1) then Critical
  else if F.ltb score (Fin 1.5) then Warning
  else Healthy.

Definition analyze_multi_token_ecosystem (token_ids : option (list string))
  : M ecosystem_health :=
  self <- get_self ;;
  let token_ids := default (tokens self) token_ids in
  a <- ecosystem_loop token_ids (Acc ∅ (Fin 0) [] []) ;;
  let score := average (sustainability_scores a) in
  ret (EcosystemHealth (acc_tokens a)
         (EcosystemMetrics (acc_total_volume a) (average (price_changes a))
            score (assess score))).

End Monitor.

(** The sustainability reports that the loop of
    [analyze_multi_token_ecosystem] obtains, token by token, in the order of
    the loop ([None]: no data for the token). *)
Fixpoint sustainability_results (requests_get : list string -> string -> response)
    (token_ids : list string) : M (list (option sustainability_report)) :=
  match token_ids with
  | [] => ret []
  | token_id :: rest =>
      token_health <- analyze_token_health requests_get token_id ;;
      sustainability <- check_token_sustainability requests_get token_id true ;;
      others <- sustainability_results requests_get rest ;;
      ret (sustainability :: others)
  end.

(** The ratios that pass the loop's test [sustainability_ratio > 0]. *)
Definition included_ratios (results : list (option sustainability_report))
  : list float :=
  List.filter (fun x => F.gtb x (Fin 0))
    (map sustainability_ratio (omap (fun r => r) results)).

(** ** Definitions that follow the specification's wording

    They are compared with the functions above, never used by them. *)

Module Spec.

(** "population standard deviation": the divisor is the number of
    values. *)
Definition population_std (xs : list R) : R :=
  let m := (Series.total xs / INR (length xs))%R in
  sqrt (Series.sq_dev m xs / INR (length xs)).


(** "tokens whose sustainability_ratio is finite and whose
    required_payouts > 0". *)
Definition qualifies (s : sustainability_report) : bool :=
  F.is_finite (sustainability_ratio s) && F.gtb (required_payouts s) (Fin 0).

(** Mean of the real numbers among [xs], 0 when there is none. *)
Definition mean_or_zero (xs : list R) : R :=
  match xs with
  | [] => 0
  | _ => Series.total xs / INR (length xs)
  end.

Definition finite_value (x : float) : R :=
  match x with Fin r => r | _ => 0%R end.

(** "mean of sustainability_ratio across tokens whose sustainability_ratio
    is finite and whose required_payouts > 0; if no token qualifies, 0". *)
Definition sustainability_score (results : list (option sustainability_report))
  : float :=
  Fin (mean_or_zero
         (map (fun s => finite_value (sustainability_ratio s))
              (List.filter qualifies (omap (fun r => r) results)))).

End Spec.

(** ** Predicates used to state the properties *)

(** The loop's test [sustainability_ratio > 0]. *)
Definition above_zero (x : float) : Prop := F.gtb x (Fin 0) = true.

Definition fin_or_pinf (x : float) : Prop :=
  match x with Fin _ | PInf => True | _ => False end.

(** Every report is built by [check_sustainability], so its ratio is the
    guarded quotient of its two amounts. *)
Definition guarded_ratio (rep : sustainability_report) : Prop :=
  sustainability_ratio rep =
    if F.gtb (required_payouts rep) (Fin 0)
    then F.div (daily_tax_revenue rep) (required_payouts rep)
    else PInf.

(** ** Concrete inputs used in the examples below *)

Module Fixture.

(** A freshly constructed [FinvestaMonitor]: nothing cached, nothing
    requested. *)
Definition fresh : monitor := FinvestaMonitor_init.

(** The market data source answers every request with an empty chart. *)
Definition empty_chart : list string -> string -> response :=
  fun _ _ => Http 200 (MarketChart [] []).

(** A chart with one point: price 1, volume 1. *)
Definition one_point : list string -> string -> response :=
  fun _ _ => Http 200 (MarketChart [(0%Z, 1%R)] [(0%Z, 1%R)]).

(** A chart whose first price is 0: prices 0 then 1, volumes 1 and 1. *)
Definition zero_start : list string -> string -> response :=
  fun _ _ => Http 200 (MarketChart [(0%Z, 0%R); (1%Z, 1%R)] [(0%Z, 1%R); (1%Z, 1%R)]).

(** Prices 1 then 3, volumes 1 and 1. *)
Definition one_three : list string -> string -> response :=
  fun _ _ => Http 200 (MarketChart [(0%Z, 1%R); (1%Z, 3%R)] [(0%Z, 1%R); (1%Z, 1%R)]).

(** A chart with one point of price 1 and no traded volume. *)
Definition zero_volume : list string -> string -> response :=
  fun _ _ => Http 200 (MarketChart [(0%Z, 1%R)] [(0%Z, 0%R)]).


(** The ledger lists one transaction that wallet 0xAb sent to itself, the
    addresses spelt in different cases. *)
Definition self_transfer : list string -> string -> response :=
  fun _ _ => Http 200 (TxList "1" [RawTx "0xc3" 5 "0xAB" "0xab" 300]).

End Fixture.

(** ** Further definitions

    Relations between monitor states, and the operations of the two classes
    and of their callers that the properties of the last part are about. *)

(** The configuration of the monitor: everything but the cache and the
    request log. *)
Definition same_config (s s' : monitor) : Prop :=
  tokens s' = tokens s /\ wallets s' = wallets s
  /\ tax_rates s' = tax_rates s /\ roi_expectations s' = roi_expectations s.

(** [s'] comes from [s] by at most [n] requests: the configuration is the
    same, every cached series is still cached, the log has grown by at most
    [n] URLs. *)
Definition extends_by (n : nat) (s s' : monitor) : Prop :=
  same_config s s'
  /\ data_cache s ⊆ data_cache s'
  /\ exists new, requests_sent s' = requests_sent s ++ new /\ (length new <= n)%nat.

Module More.

(** A monitor that has the series of "hex" in its cache. *)
Definition warm : monitor :=
  Monitor ["hex"; "pls"; "finvesta"] ∅
    {[cache_key "hex" 30 "usd" := [Row 0 1 1; Row 1 3 1]]}
    {["finvesta" := 0.05%R]} {["finvesta" := 0.01%R]} [].

(** Every request fails. *)
Definition offline : list string -> string -> response :=
  fun _ _ => ConnectionError.

End More.

(** The response does not carry a market chart: the request raised, the
    status is not 200, or the body lacks the chart fields. *)
Definition fetch_fails (r : response) : Prop :=
  match r with
  | ConnectionError => True
  | Http status_code data =>
      status_code <> 200%Z \/ forall p v, data <> MarketChart p v
  end.

(** The health reports that the loop of [analyze_multi_token_ecosystem]
    obtains, token by token, in the order of the loop. *)
Fixpoint health_results (requests_get : list string -> string -> response)
    (token_ids : list string) : M (list (string * option health_report)) :=
  match token_ids with
  | [] => ret []
  | token_id :: rest =>
      token_health <- analyze_token_health requests_get token_id ;;
      sustainability <- check_token_sustainability requests_get token_id true ;;
      others <- health_results requests_get rest ;;
      ret ((token_id, token_health) :: others)
  end.

(** The tokens that got a report, with their reports. *)
Definition reported (results : list (string * option health_report))
  : list (string * health_report) :=
  omap (fun r => match snd r with Some h => Some (fst r, h) | None => None end) results.

Module Net.

(** The first request fails; every later one is answered with a chart of one
    point, price 1 and volume 2. *)
Definition flaky : list string -> string -> response :=
  fun sent _ =>
    match sent with
    | [] => ConnectionError
    | _ => Http 200 (MarketChart [(0%Z, 1%R)] [(0%Z, 2%R)])
    end.

End Net.

(** The monitor after the requests [new] have been sent and nothing else has
    happened. *)
Definition with_requests (s : monitor) (new : list string) : monitor :=
  Monitor (tokens s) (wallets s) (data_cache s) (tax_rates s)
    (roi_expectations s) (requests_sent s ++ new).

(** The URL of the chart that the analysis of a token asks for. *)
Definition chart_url (token_id : string) : string :=
  market_chart_url token_id 30 "usd".

Module Chart.

(** Two points with the same price 2 and the same volume 5. *)
Definition flat : list string -> string -> response :=
  fun _ _ => Http 200 (MarketChart [(0%Z, 2%R); (1%Z, 2%R)] [(0%Z, 5%R); (1%Z, 5%R)]).

End Chart.

(** The character "_". *)
Definition underscore : Ascii.ascii := Ascii.ascii_of_nat 95.

(** Whether the character "_" occurs in a string. *)
Fixpoint has_underscore (s : string) : bool :=
  match s with
  | EmptyString => false
  | String c s' => if Ascii.eqb c underscore then true else has_underscore s'
  end.

Module Alias.

(** The series of token "a_7" over 30 days in "usd" is cached. *)
Definition cached : monitor :=
  Monitor ["a_7"] ∅ {[cache_key "a_7" 30 "usd" := [Row 0 1 1]]} ∅ ∅ [].

End Alias.

(** ** Configuration methods of [CryptoMonitor] and [FinvestaMonitor] *)

(** [add_token]: the name is only printed. *)
Definition add_token (token_id : string) (token_name : option string) : M unit :=
  fun s =>
    (tt, if decide (token_id ∈ tokens s) then s
         else Monitor (tokens s ++ [token_id]) (wallets s) (data_cache s)
                (tax_rates s) (roi_expectations s) (requests_sent s)).

Definition add_wallet (name address : string) : M unit :=
  fun s =>
    (tt, Monitor (tokens s) (<[name := address]> (wallets s)) (data_cache s)
           (tax_rates s) (roi_expectations s) (requests_sent s)).

Definition set_token_tax_rate (token_id : string) (rate : R) : M unit :=
  fun s =>
    (tt, Monitor (tokens s) (wallets s) (data_cache s)
           (<[token_id := rate]> (tax_rates s)) (roi_expectations s)
           (requests_sent s)).

Definition set_token_roi_expectation (token_id : string) (roi : R) : M unit :=
  fun s =>
    (tt, Monitor (tokens s) (wallets s) (data_cache s) (tax_rates s)
           (<[token_id := roi]> (roi_expectations s)) (requests_sent s)).

Module Ledger.

(** The ledger lists one transaction, received by wallet 0xd1. *)
Definition one_incoming : list string -> string -> response :=
  fun _ _ => Http 200 (TxList "1" [RawTx "0xe5" 7 "0xother" "0xd1" 400]).

End Ledger.

(** ** Project wallets and the tax distribution ([FinvestaMonitor]) *)

Record wallet_info : Type := WalletInfo {
  wi_name : string;
  wi_address : string
}.

(** The monitor together with the table [project_wallets] of the subclass. *)
Record finvesta_monitor : Type := Finvesta {
  base : monitor;
  project_wallets : gmap string (list wallet_info)
}.

Definition FM (A : Type) : Type := finvesta_monitor -> A * finvesta_monitor.

(** A method of the monitor, run on a [FinvestaMonitor]. *)
Definition lift {A : Type} (m : M A) : FM A :=
  fun f => let (a, s') := m (base f) in (a, Finvesta s' (project_wallets f)).

Definition add_project_wallet (token_id wallet_name wallet_address : string)
  : FM unit :=
  fun f =>
    let known := default [] (project_wallets f !! token_id) in
    (tt, Finvesta
           (snd (add_wallet (token_id +:+ "_" +:+ wallet_name) wallet_address (base f)))
           (<[token_id := known ++ [WalletInfo wallet_name wallet_address]]>
              (project_wallets f))).

(** The calendar day of a transaction: [datetime.dt.date], as the number of
    days since the epoch. *)
Definition day_of (t : transaction) : Z := (timeStamp t `div` 86400)%Z.

(** One more amount for the day [d], in a table sorted by day. *)
Fixpoint add_day (d : Z) (x : R) (days : list (Z * R)) : list (Z * R) :=
  match days with
  | [] => [(d, x)]
  | (d', y) :: rest =>
      if decide (d = d') then (d', (y + x)%R) :: rest
      else if decide (d < d')%Z then (d, x) :: days
      else (d', y) :: add_day d x rest
  end.

(** [groupby("date")["value_eth"].sum()]: one row per day, in ascending
    order of the days. *)
Definition groupby_sum (rows : list (Z * R)) : list (Z * R) :=
  foldl (fun days row => add_day (fst row) (snd row) days) [] rows.

(** [Series.tail(n)] *)
Definition tail {A : Type} (n : nat) (l : list A) : list A :=
  drop (length l - n) l.

Record wallet_tax : Type := WalletTax {
  total_collected : float;
  avg_daily_collection : float;
  last_7_days : list (Z * R)
}.

Record tax_report : Type := TaxReport {
  tr_token : string;
  tr_tax_rate : R;
  distribution : gmap string wallet_tax
}.

(** The entry of one project wallet, when it received anything. *)
Definition collected (wallet_address : string) (transactions : list transaction)
  : option wallet_tax :=
  let incoming_txs := List.filter (is_incoming wallet_address) transactions in
  match incoming_txs with
  | [] => None
  | _ =>
      let daily_tax :=
        groupby_sum (map (fun t => (day_of t, value_eth t)) incoming_txs) in
      Some (WalletTax (Fin (Series.total (map value_eth incoming_txs)))
              (Series.mean (map snd daily_tax))
              (tail 7 daily_tax))
  end.

Fixpoint distribution_loop (requests_get : list string -> string -> response)
    (wallets : list wallet_info) (tax_distribution : gmap string wallet_tax)
  : M (gmap string wallet_tax) :=
  match wallets with
  | [] => ret tax_distribution
  | wallet_info :: rest =>
      transactions <- get_pulsechain_wallet requests_get (wi_address wallet_info) ;;
      match transactions with
      | None => distribution_loop requests_get rest tax_distribution
      | Some txs =>
          match collected (wi_address wallet_info) txs with
          | Some entry =>
              distribution_loop requests_get rest
                (<[wi_name wallet_info := entry]> tax_distribution)
          | None => distribution_loop requests_get rest tax_distribution
          end
      end
  end.

Definition check_token_tax_distribution
    (requests_get : list string -> string -> response) (token_id : string)
  : FM (option tax_report) :=
  fun f =>
    match project_wallets f !! token_id with
    | None => (None, f)
    | Some [] => (None, f)
    | Some wallets =>
        let (tax_distribution, s') :=
          distribution_loop requests_get wallets ∅ (base f) in
        (Some (TaxReport token_id (default 0.05%R (tax_rates s' !! token_id))
                 tax_distribution),
         Finvesta s' (project_wallets f))
    end.



Module Project.

(** A [FinvestaMonitor] right after construction. *)
Definition fresh : finvesta_monitor :=
  Finvesta FinvestaMonitor_init {["finvesta" := []]}.


End Project.

(** ** The token table and its users ([finvesta_tokens.py],
    [finvesta_monitor.py]) *)

(** One entry of [FINVESTA_TOKENS]; the keys that the code tests with [in]
    are optional.  The notes, which are only printed, are left out. *)
Record token_info : Type := TokenInfo {
  ti_name : string;
  ti_address : string;
  ti_tax_rate : option R;
  ti_daily_roi : option R;
  ti_rewards : option (list string)
}.

(** A dict with string keys, in insertion order. *)
Definition token_table : Type := list (string * token_info).

Definition FINVESTA_TOKENS : token_table :=
  [ ("beast", TokenInfo "Beast" "0xdc60f0EE40bEd3078614bE202555d2f07d38166e"
       (Some 0.05%R) (Some 0.01%R) (Some ["pls"; "missor"; "remember"; "gas_money"]));
    ("dominance", TokenInfo "Dominance" "0x116D162d729E27E2E1D6478F1d2A8AEd9C7a2beA"
       (Some 0.05%R) (Some 0.01%R) (Some ["pwbtc"]));
    ("ese_baby", TokenInfo "Ese Baby" "0x6d664cb8F9DB9C5BCB7190c954d5b45F67f2d809"
       (Some 0.05%R) (Some 0.01%R) (Some ["gbaby"]));
    ("flexboost", TokenInfo "Flexboost" "0x406A63a837AC947ec0C2f0E6673e8Ef481cA7807"
       (Some 0.05%R) (Some 0.005%R) (Some ["variable"]));
    ("flexmas", TokenInfo "Flexmas" "0x5ED5882164277cec6D5Ae6f420721b199C0e5693"
       (Some 0.05%R) (Some 0.01%R) (Some ["variable"]));
    ("missor", TokenInfo "Missor" "0x063E79CF6A555dac9033EAa3c61A8f02F1020759"
       (Some 0.05%R) (Some 0.02%R) (Some ["finvesta"]));
    ("nana", TokenInfo "Nana" "0x5Db83315591bD3c121700890E03B8fE6Fe40a486"
       (Some 0.05%R) (Some 0.01%R) (Some ["affection"]));
    ("raise_it_up", TokenInfo "Raise it up" "0xA9D27362ff93f1BCEAa8290FFC36b6D98f4669b9"
       (Some 0.30%R) (Some 0.02%R) (Some ["pls"]));
    ("remember", TokenInfo "Remember" "0xC506af3eA272dAFBE1A8E39d9C3446E03637bB12"
       (Some 0.05%R) (Some 0.01%R) (Some ["pls"]));
    ("savant", TokenInfo "Savant" "0x041a80B38D3a5B4dbB30e56440cA8F0C8DFA6412"
       (Some 0.02%R) (Some 0.005%R) (Some ["plsx"]));
    ("sursum", TokenInfo "Sursum" "0x121ed41dee86741193f8856ec0cfb38158a7cbaa"
       (Some 0.05%R) (Some 0.01%R) (Some ["up"; "upx"]));
    ("wgpp", TokenInfo "World's Greatest pDAI Printer"
       "0x770cfa2fb975e7bcaedde234d92c3858c517adca"
       (Some 0.05%R) (Some 0.01%R) (Some ["pdai"]));
    ("mnemonics", TokenInfo "Mnemonics" "0x578Cd5Aed5e8F06a5b7959caaFc6213e954F434E"
       (Some 0.05%R) (Some 0.01%R) (Some ["remember"]));
    ("gas_money", TokenInfo "Gas Money" "0x042b48a98B37042D58Bc8defEEB7cA4eC76E6106"
       (Some 0.05%R) (Some 0.01%R) (Some ["pls"]));
    ("finvesta", TokenInfo "Finvesta" ""
       (Some 0.05%R) (Some 0.01%R) (Some [])) ].

(** [table.get(token_id)] *)
Fixpoint table_get (table : token_table) (token_id : string) : option token_info :=
  match table with
  | [] => None
  | (k, info) :: rest =>
      if String.eqb k token_id then Some info else table_get rest token_id
  end.

(** The value of [relationships]: for each key the list under
    ["rewarded_by"], its entries being the pairs (token, name).  The order
    of the keys of the dict is not represented. *)
Definition relationships : Type := gmap string (list (string * string)).

(** The inner loop of [check_token_relationships] for one token. *)
Definition add_rewards (token_id name : string) (rewards : list string)
    (rel : relationships) : relationships :=
  foldl (fun rel reward =>
           <[reward := default [] (rel !! reward) ++ [(token_id, name)]]> rel)
        rel rewards.

Definition check_token_relationships (table : token_table) : relationships :=
  let rewarded :=
    foldl (fun rel entry =>
             match ti_rewards (snd entry) with
             | Some rewards => add_rewards (fst entry) (ti_name (snd entry)) rewards rel
             | None => rel
             end)
          ∅ table in
  foldl (fun rel entry =>
           match rel !! fst entry with
           | Some _ => rel
           | None => <[fst entry := []]> rel
           end)
        rewarded table.

(** The tokens of the table that reward [reward], each once per mention, in
    the order of the table. *)
Definition rewarders (table : token_table) (reward : string)
  : list (string * string) :=
  flat_map (fun entry =>
              map (fun _ => (fst entry, ti_name (snd entry)))
                  (List.filter (String.eqb reward)
                     (default [] (ti_rewards (snd entry)))))
           table.

(** ** Configuration from the token table ([configure_finvesta_monitor]) *)

(** The body of the loop of [configure_finvesta_monitor] for one entry of
    the table.  An empty address is false. *)
Definition configure_token (token_id : string) (info : token_info) : FM unit :=
  fun f =>
    let f1 := snd (lift (add_token token_id (Some (ti_name info))) f) in
    let f2 :=
      match ti_tax_rate info with
      | Some rate => snd (lift (set_token_tax_rate token_id rate) f1)
      | None => f1
      end in
    let f3 :=
      match ti_daily_roi info with
      | Some roi => snd (lift (set_token_roi_expectation token_id roi) f2)
      | None => f2
      end in
    if truthy (Some (ti_address info)) then
      let f4 :=
        snd (lift (add_wallet (token_id +:+ "_contract") (ti_address info)) f3) in
      add_project_wallet token_id (token_id +:+ "_contract") (ti_address info) f4
    else (tt, f3).

(** [configure_finvesta_monitor], for any token table. *)
Definition configure_from (table : token_table) : finvesta_monitor :=
  foldl (fun f entry => snd (configure_token (fst entry) (snd entry) f))
        Project.fresh table.

Definition configure_finvesta_monitor : finvesta_monitor :=
  configure_from FINVESTA_TOKENS.

Module Tokens.


End Tokens.

(** ** Plots and the analysis of one token ([plot_token_data],
    [analyze_token]) *)

(** [plot_token_data]: what it returns and what it does to the monitor.  The
    drawing itself and the file it writes are not represented. *)
Definition plot_token_data (requests_get : list string -> string -> response)
    (token_id : string) (save_path : option string) : M (option string) :=
  data <- get_token_data requests_get token_id 30 "usd" ;;
  match data with
  | None => ret None
  | Some [] => ret None
  | Some _ => ret (if truthy save_path then save_path else None)
  end.

Definition plot_path (token_id : string) : string :=
  "plots/" +:+ token_id +:+ "_analysis.png".

(** The dict that [analyze_token] returns: the health report and the keys
    "sustainability" and "plot" that may be added to it. *)
Record token_analysis : Type := TokenAnalysis {
  ta_health : health_report;
  ta_sustainability : option sustainability_report;
  ta_plot : option string
}.

Definition analyze_token (requests_get : list string -> string -> response)
    (table : token_table) (token_id : string)
    (check_sustainability generate_plot : bool) : M (option token_analysis) :=
  match table_get table token_id with
  | None => ret None
  | Some token_info =>
      health <- analyze_token_health requests_get token_id ;;
      sustainability <-
        (if check_sustainability
         then check_token_sustainability requests_get token_id true
         else ret None) ;;
      match health with
      | None => ret None
      | Some h =>
          if generate_plot then
            saved <- plot_token_data requests_get token_id
                       (Some (plot_path token_id)) ;;
            ret (Some (TokenAnalysis h sustainability (Some (plot_path token_id))))
          else ret (Some (TokenAnalysis h sustainability None))
      end
  end.

(** ** The analysis of the whole table ([analyze_ecosystem]) *)

(** The loop of [analyze_ecosystem] over the tokens of the table.  The key
    "plot" that the code adds to the report of a token is kept in a table of
    its own, [plots], from token to path. *)
Fixpoint plot_loop (requests_get : list string -> string -> response)
    (token_ids : list string) (reports : gmap string health_report)
    (plots : gmap string string) : M (gmap string string) :=
  match token_ids with
  | [] => ret plots
  | token_id :: rest =>
      saved <- plot_token_data requests_get token_id (Some (plot_path token_id)) ;;
      plot_loop requests_get rest reports
        (match reports !! token_id with
         | Some _ => <[token_id := plot_path token_id]> plots
         | None => plots
         end)
  end.

(** [analyze_ecosystem] without an output file: the report of the ecosystem
    and the plot paths added to it. *)
Definition analyze_ecosystem (requests_get : list string -> string -> response)
    (table : token_table) : M (ecosystem_health * gmap string string) :=
  ecosystem <- analyze_multi_token_ecosystem requests_get (Some (map fst table)) ;;
  plots <- plot_loop requests_get (map fst table) (eco_tokens ecosystem) ∅ ;;
  ret (ecosystem, plots).

(** * Properties *)

(** ** The monad *)

Ltac run :=
  unfold bind, ret, get_self, http_get, set_data_cache; simpl.

Lemma get_token_data_hit net token_id days cur s df :
  data_cache s !! cache_key token_id days cur = Some df ->
  get_token_data net token_id days cur s = (Some df, s).
Proof. intros Hhit. unfold get_token_data. run. by rewrite Hhit. Qed.

Lemma get_token_data_stores net token_id days cur s p v :
  data_cache s !! cache_key token_id days cur = None ->
  net (requests_sent s) (market_chart_url token_id days cur)
    = Http 200 (MarketChart p v) ->
  get_token_data net token_id days cur s =
    (Some (merge p v),
     Monitor (tokens s) (wallets s)
       (<[cache_key token_id days cur := merge p v]> (data_cache s))
       (tax_rates s) (roi_expectations s)
       (requests_sent s ++ [market_chart_url token_id days cur])).
Proof.
  intros Hmiss Hresp. unfold get_token_data. run.
  rewrite Hmiss. simpl. rewrite Hresp. by rewrite decide_True.
Qed.

(** Without a cached entry, the call sends exactly one request, and either
    returns nothing and leaves the cache alone, or returns what it just
    stored. *)
Lemma get_token_data_miss net token_id days cur s :
  data_cache s !! cache_key token_id days cur = None ->
  let out := get_token_data net token_id days cur s in
  requests_sent (snd out) = requests_sent s ++ [market_chart_url token_id days cur]
  /\ tokens (snd out) = tokens s /\ wallets (snd out) = wallets s
  /\ tax_rates (snd out) = tax_rates s
  /\ roi_expectations (snd out) = roi_expectations s
  /\ match fst out with
     | None => data_cache (snd out) = data_cache s
     | Some df => data_cache (snd out) = <[cache_key token_id days cur := df]> (data_cache s)
     end.
Proof.
  intros Hmiss. unfold get_token_data. run. rewrite Hmiss. simpl.
  destruct (net _ _) as [|code body]; simpl; [done|].
  case_decide; simpl; [|done].
  destruct body; simpl; done.
Qed.

Lemma get_token_data_config net token_id days cur s :
  let out := get_token_data net token_id days cur s in
  tokens (snd out) = tokens s /\ wallets (snd out) = wallets s
  /\ tax_rates (snd out) = tax_rates s
  /\ roi_expectations (snd out) = roi_expectations s.
Proof.
  destruct (data_cache s !! cache_key token_id days cur) as [df|] eqn:Hc.
  - by rewrite (get_token_data_hit _ _ _ _ _ _ Hc).
  - pose proof (get_token_data_miss net _ _ _ _ Hc) as H. simpl in *. tauto.
Qed.

(** What [get_token_data] returns is in the cache afterwards. *)
Lemma get_token_data_cached net token_id days cur s df s' :
  get_token_data net token_id days cur s = (Some df, s') ->
  data_cache s' !! cache_key token_id days cur = Some df.
Proof.
  intros Hrun.
  destruct (data_cache s !! cache_key token_id days cur) as [df0|] eqn:Hc.
  - rewrite (get_token_data_hit _ _ _ _ _ _ Hc) in Hrun. congruence.
  - pose proof (get_token_data_miss net _ _ _ _ Hc) as H. simpl in H.
    rewrite Hrun in H. simpl in H. destruct H as (_ & _ & _ & _ & _ & ->).
    apply lookup_insert_eq.
Qed.

(** ** Series cache (C7) *)

(** C7, as the code has it: on a hit the cached series is returned and no
    request is sent.  On a miss exactly one request is sent; when it fails
    (connection error, a status other than 200, or a body without the chart
    fields) nothing is stored, the caller gets [None] and the next call with
    the same key sends the request again; a chart that arrives with status
    200 is stored under the key and returned, whatever it contains. *)
Theorem get_token_data_cache net token_id days cur s :
  let key := cache_key token_id days cur in
  let url := market_chart_url token_id days cur in
  let out := get_token_data net token_id days cur s in
  (forall df, data_cache s !! key = Some df -> out = (Some df, s))
  /\ (data_cache s !! key = None ->
      requests_sent (snd out) = requests_sent s ++ [url]
      /\ (forall p v, net (requests_sent s) url = Http 200 (MarketChart p v) ->
            fst out = Some (merge p v)
            /\ data_cache (snd out) !! key = Some (merge p v))
      /\ (net (requests_sent s) url = ConnectionError
          \/ (exists code body, net (requests_sent s) url = Http code body
                 /\ (code <> 200%Z \/ forall p v, body <> MarketChart p v)) ->
            fst out = None
            /\ data_cache (snd out) = data_cache s
            /\ requests_sent (snd (get_token_data net token_id days cur (snd out)))
                 = requests_sent s ++ [url; url])).
Proof.
  intros key url out. split.
  - intros df Hhit. by apply get_token_data_hit.
  - intros Hmiss.
    pose proof (get_token_data_miss net _ _ _ _ Hmiss) as (Hsent & _ & _ & _ & _ & Hcache).
    fold out in Hsent, Hcache. split; [exact Hsent|]. split.
    + intros p v Hresp. subst out.
      rewrite (get_token_data_stores _ _ _ _ _ _ _ Hmiss Hresp). simpl.
      split; [done|]. apply lookup_insert_eq.
    + intros Hfail.
      assert (fst out = None) as Hnone.
      { subst out. unfold get_token_data. run. fold key. rewrite Hmiss. simpl.
        fold url. destruct Hfail as [->|(code & body & -> & [Hcode|Hbody])]; simpl.
        - done.
        - by rewrite decide_False.
        - case_decide; [|done]. destruct body; try done. by destruct (Hbody prices total_volumes). }
      rewrite Hnone in Hcache. split; [done|]. split; [done|].
      assert (data_cache (snd out) !! key = None) as Hmiss' by (by rewrite Hcache).
      pose proof (get_token_data_miss net _ _ _ _ Hmiss') as (Hsent' & _).
      rewrite Hsent', Hsent. by rewrite <- app_assoc.
Qed.

(** C7 fails as stated: an empty chart that arrives with status 200 is
    stored and handed to the caller, and the next call with the same key
    returns the stored empty series without sending a request. *)
Lemma get_token_data_caches_empty :
  let first := get_token_data Fixture.empty_chart "hex" 30 "usd" Fixture.fresh in
  let second := get_token_data Fixture.empty_chart "hex" 30 "usd" (snd first) in
  fst first = Some []
  /\ data_cache (snd first) !! cache_key "hex" 30 "usd" = Some []
  /\ fst second = Some []
  /\ length (requests_sent (snd first)) = 1%nat
  /\ requests_sent (snd second) = requests_sent (snd first).
Proof.
  assert (get_token_data Fixture.empty_chart "hex" 30 "usd" Fixture.fresh
          = (Some [], Monitor (tokens Fixture.fresh) ∅
               (<[cache_key "hex" 30 "usd" := []]> ∅)
               (tax_rates Fixture.fresh) (roi_expectations Fixture.fresh)
               ([] ++ [market_chart_url "hex" 30 "usd"]))) as Hfirst.
  { by rewrite (get_token_data_stores Fixture.empty_chart "hex" 30 "usd"
                  Fixture.fresh [] []). }
  intros first second. subst second first. rewrite Hfirst. simpl snd.
  rewrite (get_token_data_hit _ _ _ _ _ []); [|apply lookup_insert_eq].
  simpl. repeat split; try done; apply lookup_insert_eq.
Qed.

(** A chart whose price and volume timestamps do not match merges to the
    empty frame as well. *)
Example merge_unaligned : merge [(0%Z, 1%R)] [(1%Z, 1%R)] = [].
Proof. reflexivity. Qed.

(** ** Floats and series *)

Ltac rdec := repeat (case_decide || case_bool_decide); try done; try lra.

Lemma div_fin a b : b <> 0%R -> F.div (Fin a) (Fin b) = Fin (a / b).
Proof. intros Hb. simpl. by rewrite decide_False. Qed.

Lemma div_zero a : F.div (Fin a) (Fin 0) = F.signed_inf a.
Proof. simpl. by rewrite decide_True. Qed.

Lemma signed_inf_times_100 a : F.mul (F.signed_inf a) (Fin 100) = F.signed_inf a.
Proof. unfold F.signed_inf. rdec; simpl; unfold F.signed_inf; rdec. Qed.

Lemma signed_inf_not_finite a : F.is_finite (F.signed_inf a) = false.
Proof. unfold F.signed_inf. rdec. Qed.

Lemma mean_cons x xs :
  Series.mean (x :: xs) = Fin (Series.total (x :: xs) / INR (length (x :: xs))).
Proof. done. Qed.

Lemma total_nonneg xs : Forall (fun x => 0 <= x)%R xs -> (0 <= Series.total xs)%R.
Proof. induction 1; simpl; lra. Qed.

Lemma sq_dev_nonneg m xs : (0 <= Series.sq_dev m xs)%R.
Proof.
  unfold Series.sq_dev. apply total_nonneg, Forall_forall.
  intros y Hy. apply list_elem_of_fmap in Hy as (x & -> & _).
  apply (Rle_0_sqr (x - m)).
Qed.

(** ** Token health evaluator (C3, C5, C6, C8) *)

Lemma analyze_token_health_run net token_id s :
  analyze_token_health net token_id s =
    (fst (get_token_data net token_id 30 "usd" s) ≫= token_health token_id,
     snd (get_token_data net token_id 30 "usd" s)).
Proof.
  unfold analyze_token_health, bind.
  destruct (get_token_data net token_id 30 "usd" s) as [[df|] s']; done.
Qed.

Lemma fresh_fetch net token_id p v :
  net [] (market_chart_url token_id 30 "usd") = Http 200 (MarketChart p v) ->
  fst (get_token_data net token_id 30 "usd" Fixture.fresh) = Some (merge p v).
Proof.
  intros Hresp.
  by rewrite (get_token_data_stores net token_id 30 "usd" Fixture.fresh p v).
Qed.

Lemma one_point_data :
  fst (get_token_data Fixture.one_point "hex" 30 "usd" Fixture.fresh)
    = Some [Row 0 1 1].
Proof.
  exact (fresh_fetch Fixture.one_point "hex" [(0%Z, 1%R)] [(0%Z, 1%R)] eq_refl).
Qed.

Lemma zero_start_data :
  fst (get_token_data Fixture.zero_start "hex" 30 "usd" Fixture.fresh)
    = Some [Row 0 0 1; Row 1 1 1].
Proof.
  exact (fresh_fetch Fixture.zero_start "hex"
           [(0%Z, 0%R); (1%Z, 1%R)] [(0%Z, 1%R); (1%Z, 1%R)] eq_refl).
Qed.

Lemma one_three_data :
  fst (get_token_data Fixture.one_three "hex" 30 "usd" Fixture.fresh)
    = Some [Row 0 1 1; Row 1 3 1].
Proof.
  exact (fresh_fetch Fixture.one_three "hex"
           [(0%Z, 1%R); (1%Z, 3%R)] [(0%Z, 1%R); (1%Z, 1%R)] eq_refl).
Qed.

(** C5, as the code has it: the evaluator returns no report exactly when
    there is no data or the series is empty; it changes the state only
    through the data lookup.  A series with a single point is evaluated:
    the report carries its price and volume, a price change of 0 percent
    unless the price is 0, and a volatility that is NaN. *)
Theorem analyze_token_health_no_report net token_id s :
  let data := get_token_data net token_id 30 "usd" s in
  let out := analyze_token_health net token_id s in
  snd out = snd data
  /\ (fst out = None <-> fst data = None \/ fst data = Some [])
  /\ (forall r, fst data = Some [r] ->
        exists rep, fst out = Some rep
          /\ current_price rep = Fin (price r)
          /\ current_volume rep = Fin (volume r)
          /\ price_volatility rep = NaN
          /\ (price r <> 0%R -> price_change_30d rep = Fin 0)).
Proof.
  intros data out. subst out. rewrite analyze_token_health_run. fold data.
  split; [done|]. split.
  - destruct (fst data) as [[|r df]|]; simpl.
    + split; auto.
    + split; [discriminate | intros [?|?]; discriminate].
    + split; auto.
  - intros r ->. simpl. eexists. split; [done|]. simpl.
    repeat split; try done.
    intros Hr. rewrite decide_False by done. simpl. f_equal. by field.
Qed.

(** C5 fails as stated: a chart with exactly one point yields a report. *)
Lemma analyze_token_health_one_point :
  exists rep,
    fst (get_token_data Fixture.one_point "hex" 30 "usd" Fixture.fresh)
      = Some [Row 0 1 1]
    /\ fst (analyze_token_health Fixture.one_point "hex" Fixture.fresh) = Some rep
    /\ current_price rep = Fin 1
    /\ price_volatility rep = NaN.
Proof.
  rewrite analyze_token_health_run, one_point_data.
  eexists. split; [reflexivity|]. split; [reflexivity|]. done.
Qed.

(** C6, as the code has it: a series whose first price is 0 is evaluated
    like any other; no error is returned.  The price change of the report
    is the result of a float division by zero: +inf when the last price is
    positive, -inf when it is negative, NaN when it is 0 as well. *)
Theorem analyze_token_health_zero_first_price net token_id s first rest :
  fst (get_token_data net token_id 30 "usd" s) = Some (first :: rest) ->
  price first = 0%R ->
  exists rep,
    fst (analyze_token_health net token_id s) = Some rep
    /\ price_change_30d rep = F.signed_inf (price (List.last (first :: rest) first))
    /\ F.is_finite (price_change_30d rep) = false.
Proof.
  intros Hdata Hzero. rewrite analyze_token_health_run, Hdata.
  eexists. split; [reflexivity|].
  cbn [price_change_30d]. rewrite Hzero.
  set (p := price _).
  assert (F.sub (Fin p) (Fin 0) = Fin p) as -> by (simpl; f_equal; lra).
  rewrite div_zero, signed_inf_times_100.
  split; [done|]. apply signed_inf_not_finite.
Qed.

Lemma analyze_token_health_zero_first_price_witness :
  exists rep,
    fst (analyze_token_health Fixture.zero_start "hex" Fixture.fresh) = Some rep
    /\ price_change_30d rep = F.signed_inf (price (List.last [Row 0 0 1; Row 1 1 1] (Row 0 0 1)))
    /\ F.is_finite (price_change_30d rep) = false.
Proof.
  apply (analyze_token_health_zero_first_price Fixture.zero_start "hex"
           Fixture.fresh (Row 0 0 1) [Row 1 1 1]).
  - exact zero_start_data.
  - reflexivity.
Defined.

(** C6 fails as stated: prices 0 then 1 give a report, and its price change
    is +inf. *)
Lemma analyze_token_health_reports_infinity :
  exists rep,
    fst (analyze_token_health Fixture.zero_start "hex" Fixture.fresh) = Some rep
    /\ price_change_30d rep = PInf.
Proof.
  rewrite analyze_token_health_run, zero_start_data.
  eexists. split; [reflexivity|].
  cbn [price_change_30d]. simpl List.last. cbn [price].
  assert (F.sub (Fin 1) (Fin 0) = Fin 1) as -> by (simpl; f_equal; lra).
  rewrite div_zero, signed_inf_times_100. unfold F.signed_inf. rdec.
Qed.

Lemma std_sample xs :
  (2 <= length xs)%nat ->
  Series.std xs =
    Fin (sqrt (Series.sq_dev (Series.total xs / INR (length xs)) xs
               / (INR (length xs) - 1))).
Proof.
  intros Hlen. unfold Series.std. rewrite decide_False by lia.
  rewrite minus_INR by lia. done.
Qed.

Lemma volatility_value xs :
  (2 <= length xs)%nat ->
  let m := (Series.total xs / INR (length xs))%R in
  (0 < m)%R ->
  F.mul (F.div (Series.std xs) (Series.mean xs)) (Fin 100) =
    Fin (sqrt (Series.sq_dev m xs / (INR (length xs) - 1)) / m * 100).
Proof.
  intros Hlen m Hm. rewrite std_sample by done.
  destruct xs as [|x xs]; [simpl in Hlen; lia|].
  rewrite mean_cons. fold m. rewrite div_fin by lra. done.
Qed.

(** C3, as the code has it: for a series of at least two points with a
    positive mean price, the reported volatility is the sample standard
    deviation of the prices (divisor n - 1, pandas' default) divided by the
    mean price, times 100, and it is not negative. *)
Theorem price_volatility_sample_std net token_id s df :
  fst (get_token_data net token_id 30 "usd" s) = Some df ->
  (2 <= length df)%nat ->
  let prices := map price df in
  let n := INR (length df) in
  let m := (Series.total prices / n)%R in
  (0 < m)%R ->
  exists rep,
    fst (analyze_token_health net token_id s) = Some rep
    /\ price_volatility rep =
         Fin (sqrt (Series.sq_dev m prices / (n - 1)) / m * 100)
    /\ (0 <= sqrt (Series.sq_dev m prices / (n - 1)) / m * 100)%R.
Proof.
  intros Hdata Hlen prices n m Hm.
  rewrite analyze_token_health_run, Hdata.
  destruct df as [|first rest]; [simpl in Hlen; lia|].
  eexists. split; [reflexivity|]. cbn [price_volatility]. fold prices.
  assert (length prices = length (first :: rest)) as Hlp
    by (subst prices; apply length_map).
  split.
  - rewrite volatility_value; rewrite Hlp; done.
  - pose proof (sqrt_pos (Series.sq_dev m prices / (n - 1))) as Hs.
    assert (0 <= sqrt (Series.sq_dev m prices / (n - 1)) / m)%R
      by (apply Rmult_le_pos; [done|left; by apply Rinv_0_lt_compat]).
    lra.
Qed.

Lemma price_volatility_sample_std_witness :
  exists rep,
    fst (analyze_token_health Fixture.one_three "hex" Fixture.fresh) = Some rep
    /\ price_volatility rep =
         Fin (sqrt (Series.sq_dev ((1 + (3 + 0)) / INR 2) [1; 3]%R / (INR 2 - 1))
              / ((1 + (3 + 0)) / INR 2) * 100)
    /\ (0 <= sqrt (Series.sq_dev ((1 + (3 + 0)) / INR 2) [1; 3]%R / (INR 2 - 1))
              / ((1 + (3 + 0)) / INR 2) * 100)%R.
Proof.
  apply (price_volatility_sample_std Fixture.one_three "hex" Fixture.fresh
           [Row 0 1 1; Row 1 3 1]).
  - exact one_three_data.
  - simpl. lia.
  - simpl. lra.
Defined.

(** C3 fails as stated: for the prices 1 and 3 (mean 2) the population
    standard deviation is 1, which would give 50 percent; the report holds
    the sample standard deviation, the square root of 2, over the mean. *)
Lemma price_volatility_not_population :
  exists rep,
    fst (analyze_token_health Fixture.one_three "hex" Fixture.fresh) = Some rep
    /\ Series.mean [1; 3]%R = Fin 2
    /\ Spec.population_std [1; 3]%R = 1%R
    /\ price_volatility rep = Fin (sqrt 2 / 2 * 100)
    /\ price_volatility rep <> Fin (Spec.population_std [1; 3]%R / 2 * 100).
Proof.
  rewrite analyze_token_health_run, one_three_data.
  eexists. split; [reflexivity|]. cbn [price_volatility map price].
  assert (Series.total [1; 3]%R / INR 2 = 2)%R as Hm by (simpl; lra).
  assert (Series.sq_dev 2 [1; 3]%R = 2)%R as Hdev
    by (unfold Series.sq_dev; simpl; lra).
  assert (Spec.population_std [1; 3]%R = 1%R) as Hpop.
  { unfold Spec.population_std. simpl length. rewrite Hm, Hdev.
    replace (2 / INR 2)%R with 1%R by (simpl; lra). apply sqrt_1. }
  assert (F.mul (F.div (Series.std [1; 3]%R) (Series.mean [1; 3]%R)) (Fin 100)
          = Fin (sqrt 2 / 2 * 100)) as Hvol.
  { rewrite volatility_value; simpl length; rewrite ?Hm; [|lia|lra].
    rewrite Hdev. replace (2 / (INR 2 - 1))%R with 2%R by (simpl; lra). done. }
  split; [simpl; f_equal; lra|]. split; [done|]. split; [exact Hvol|].
  rewrite Hvol, Hpop. intros [= Heq].
  assert (sqrt 2 = 1)%R as Hone by lra.
  pose proof (sqrt_sqrt 2) as Hsq. rewrite Hone in Hsq. lra.
Qed.



(** ** Sustainability model (C2, C9) *)



Lemma check_token_sustainability_run net token_id estimate_supply s :
  let out := get_token_data net token_id 30 "usd" s in
  check_token_sustainability net token_id estimate_supply s =
    (fst out ≫= token_sustainability (snd out) token_id estimate_supply, snd out).
Proof.
  unfold check_token_sustainability, bind, get_self, ret.
  destruct (get_token_data net token_id 30 "usd" s) as [[df|] s']; done.
Qed.



(** ** Ecosystem aggregator (C1) *)

(** A second lookup of data that was just returned hits the cache. *)
Lemma get_token_data_again net token_id days cur s df :
  fst (get_token_data net token_id days cur s) = Some df ->
  get_token_data net token_id days cur (snd (get_token_data net token_id days cur s))
    = (Some df, snd (get_token_data net token_id days cur s)).
Proof.
  intros Hdata. apply get_token_data_hit.
  apply (get_token_data_cached net token_id days cur s).
  rewrite <- Hdata. apply surjective_pairing.
Qed.

Lemma add_scores token_id h sr a :
  sustainability_scores (add_sustainability sr (add_health token_id h a))
    = sustainability_scores a ++ included_ratios [sr].
Proof.
  unfold included_ratios, add_sustainability, add_health.
  destruct sr as [rep|], h as [hr|]; cbn -[F.gtb];
    try destruct (F.gtb _ _); cbn; by rewrite ?app_nil_r.
Qed.

Lemma included_ratios_cons sr results :
  included_ratios (sr :: results) = included_ratios [sr] ++ included_ratios results.
Proof.
  unfold included_ratios. destruct sr as [rep|]; cbn -[F.gtb]; [|done].
  by destruct (F.gtb _ _).
Qed.

Lemma ecosystem_loop_scores net token_ids : forall a s,
  snd (ecosystem_loop net token_ids a s) = snd (sustainability_results net token_ids s)
  /\ sustainability_scores (fst (ecosystem_loop net token_ids a s))
       = sustainability_scores a
         ++ included_ratios (fst (sustainability_results net token_ids s)).
Proof.
  induction token_ids as [|token_id rest IH]; intros a s.
  - simpl. by rewrite app_nil_r.
  - simpl. unfold bind, ret.
    destruct (analyze_token_health net token_id s) as [h s1].
    destruct (check_token_sustainability net token_id true s1) as [sr s2].
    destruct (IH (add_sustainability sr (add_health token_id h a)) s2) as [Hs Hsc].
    destruct (sustainability_results net rest s2) as [others s3]. simpl in *.
    split; [done|].
    rewrite Hsc, add_scores, (included_ratios_cons sr others).
    by rewrite <- app_assoc.
Qed.

Lemma above_zero_fin_or_pinf x : above_zero x -> fin_or_pinf x.
Proof. by destruct x. Qed.

Lemma included_ratios_above_zero results :
  Forall above_zero (included_ratios results).
Proof.
  apply List.Forall_forall. intros x Hx.
  apply filter_In in Hx as [_ Hx]. exact Hx.
Qed.

Lemma foldl_add_fin rs : forall a,
  foldl F.add (Fin a) (map Fin rs) = Fin (a + Series.total rs).
Proof.
  induction rs as [|r rs IH]; intros a; simpl.
  - f_equal. lra.
  - rewrite IH. f_equal. lra.
Qed.

Lemma foldl_add_pinf xs :
  Forall above_zero xs -> foldl F.add PInf xs = PInf.
Proof.
  induction 1 as [|x xs Hx _ IH]; [done|].
  simpl. apply above_zero_fin_or_pinf in Hx. by destruct x.
Qed.

Lemma foldl_add_reaches_pinf xs : forall acc,
  Forall above_zero xs -> fin_or_pinf acc -> PInf ∈ xs ->
  foldl F.add acc xs = PInf.
Proof.
  induction xs as [|x xs IH]; intros acc Hall Hacc Hin.
  - by apply elem_of_nil in Hin.
  - apply Forall_cons in Hall as [Hx Hall]. simpl.
    apply elem_of_cons in Hin as [<-|Hin].
    + assert (F.add acc PInf = PInf) as -> by (by destruct acc).
      by apply foldl_add_pinf.
    + apply IH; [done| |done].
      apply above_zero_fin_or_pinf in Hx. by destruct acc, x.
Qed.

Lemma average_fin rs :
  rs <> [] ->
  average (map Fin rs) = Fin (Series.total rs / INR (length rs)).
Proof.
  intros Hne. destruct rs as [|r rs]; [done|].
  change (map Fin (r :: rs)) with (Fin r :: map Fin rs). unfold average.
  change (Fin r :: map Fin rs) with (map Fin (r :: rs)). unfold F.sum.
  rewrite foldl_add_fin, length_map.
  rewrite div_fin.
  - f_equal. f_equal. lra.
  - apply not_0_INR. simpl. lia.
Qed.

Lemma average_pinf xs :
  Forall above_zero xs -> PInf ∈ xs -> average xs = PInf.
Proof.
  intros Hall Hin. destruct xs as [|x xs]; [by apply elem_of_nil in Hin|].
  unfold average, F.sum. rewrite foldl_add_reaches_pinf; try done.
  cbn [F.div]. rewrite decide_True; [done|]. apply pos_INR.
Qed.

Lemma check_token_sustainability_guarded net token_id e s rep :
  fst (check_token_sustainability net token_id e s) = Some rep ->
  guarded_ratio rep.
Proof.
  rewrite check_token_sustainability_run. cbn [fst].
  destruct (fst (get_token_data net token_id 30 "usd" s)) as [[|r df]|];
    try done.
  intros [= <-]. done.
Qed.

Lemma sustainability_results_guarded net token_ids : forall s rep,
  Some rep ∈ fst (sustainability_results net token_ids s) -> guarded_ratio rep.
Proof.
  induction token_ids as [|token_id rest IH]; intros s rep; simpl.
  - intros Hin. by apply elem_of_nil in Hin.
  - unfold bind, ret.
    destruct (analyze_token_health net token_id s) as [h s1].
    destruct (check_token_sustainability net token_id true s1) as [sr s2] eqn:Hsr.
    specialize (IH s2 rep).
    destruct (sustainability_results net rest s2) as [others s3]. simpl in *.
    intros [<-|Hin]%elem_of_cons; [|by apply IH].
    apply (check_token_sustainability_guarded net token_id true s1).
    by rewrite Hsr.
Qed.

Lemma zero_payouts_infinite_ratio rep :
  guarded_ratio rep -> required_payouts rep = Fin 0 ->
  sustainability_ratio rep = PInf.
Proof.
  unfold guarded_ratio. intros -> ->. unfold F.gtb. simpl.
  rewrite bool_decide_eq_false_2; [done|lra].
Qed.

Lemma included_ratios_elem results rep :
  Some rep ∈ results -> above_zero (sustainability_ratio rep) ->
  sustainability_ratio rep ∈ included_ratios results.
Proof.
  intros Hin Hpos. apply list_elem_of_In, filter_In. split; [|exact Hpos].
  apply in_map, list_elem_of_In, list_elem_of_omap. by exists (Some rep).
Qed.

Lemma analyze_multi_token_ecosystem_score net token_ids s :
  sustainability_score (metrics (fst (analyze_multi_token_ecosystem net token_ids s)))
    = average (included_ratios
                 (fst (sustainability_results net (default (tokens s) token_ids) s))).
Proof.
  unfold analyze_multi_token_ecosystem, bind, get_self, ret.
  pose proof (ecosystem_loop_scores net (default (tokens s) token_ids)
                (Acc ∅ (Fin 0) [] []) s) as [_ Hsc].
  destruct (ecosystem_loop net _ _ s) as [a s']. simpl in *. by rewrite Hsc.
Qed.

(** C1, as the code has it: the sustainability score is [sum / len] over the
    ratios that are greater than 0, of the tokens that have data, and 0 when
    there is none.  It is the arithmetic mean when these ratios are all
    finite, and +inf as soon as one of them is +inf.  A token whose required
    payouts are 0 has the ratio +inf, which is greater than 0: when every
    evaluated token has required payouts 0, and there is one, the score is
    +inf. *)
Theorem sustainability_score_of_positive_ratios net token_ids s :
  let eco := fst (analyze_multi_token_ecosystem net token_ids s) in
  let results := fst (sustainability_results net (default (tokens s) token_ids) s) in
  let ratios := included_ratios results in
  let score := sustainability_score (metrics eco) in
  score = average ratios
  /\ (forall x, x ∈ ratios <->
        F.gtb x (Fin 0) = true
        /\ exists rep, Some rep ∈ results /\ sustainability_ratio rep = x)
  /\ (ratios = [] -> score = Fin 0)
  /\ (forall rs, rs <> [] -> ratios = map Fin rs ->
        score = Fin (Series.total rs / INR (length rs)))
  /\ (PInf ∈ ratios -> score = PInf)
  /\ ((exists rep, Some rep ∈ results) ->
      (forall rep, Some rep ∈ results -> required_payouts rep = Fin 0) ->
      score = PInf).
Proof.
  intros eco results ratios score.
  assert (score = average ratios) as Hscore
    by apply analyze_multi_token_ecosystem_score.
  pose proof (included_ratios_above_zero results) as Hpos. fold ratios in Hpos.
  split_and!; [done| | | | |].
  - intros x. subst ratios. unfold included_ratios.
    rewrite list_elem_of_In, filter_In, in_map_iff. split.
    + intros [(rep & <- & Hin) Hx]. split; [done|]. exists rep. split; [|done].
      apply list_elem_of_In, list_elem_of_omap in Hin as (o & Ho & ->). done.
    + intros [Hx (rep & Hin & <-)]. split; [|done]. exists rep. split; [done|].
      apply list_elem_of_In, list_elem_of_omap. by exists (Some rep).
  - intros Hnil. by rewrite Hscore, Hnil.
  - intros rs Hne Heq. rewrite Hscore, Heq. by apply average_fin.
  - intros Hin. rewrite Hscore. by apply average_pinf.
  - intros [rep Hin] Hzero. rewrite Hscore. apply average_pinf; [done|].
    assert (sustainability_ratio rep = PInf) as Hinf.
    { apply zero_payouts_infinite_ratio; [|by apply Hzero].
      by apply (sustainability_results_guarded net (default (tokens s) token_ids) s). }
    rewrite <- Hinf. apply included_ratios_elem; [done|]. by rewrite Hinf.
Qed.

Lemma zero_volume_data :
  fst (get_token_data Fixture.zero_volume "hex" 30 "usd" Fixture.fresh)
    = Some [Row 0 1 0].
Proof.
  exact (fresh_fetch Fixture.zero_volume "hex" [(0%Z, 1%R)] [(0%Z, 0%R)] eq_refl).
Qed.

(** C1 fails as stated: for one token whose only point has no volume, the
    required payouts are 0 and the ratio is +inf; no token qualifies for the
    mean of the specification, which is 0, but the reported score is +inf. *)
Lemma sustainability_score_infinite :
  let eco := fst (analyze_multi_token_ecosystem Fixture.zero_volume
                    (Some ["hex"]) Fixture.fresh) in
  let results := fst (sustainability_results Fixture.zero_volume ["hex"]
                        Fixture.fresh) in
  (exists rep, results = [Some rep]
     /\ required_payouts rep = Fin 0
     /\ sustainability_ratio rep = PInf)
  /\ Spec.sustainability_score results = Fin 0
  /\ sustainability_score (metrics eco) = PInf
  /\ sustainability_score (metrics eco) <> Spec.sustainability_score results.
Proof.
  intros eco results.
  assert (exists rep, results = [Some rep]
            /\ required_payouts rep = Fin 0
            /\ sustainability_ratio rep = PInf) as (rep & Hres & Hreq & Hratio).
  { subst results. cbn [sustainability_results]. unfold bind, ret.
    rewrite analyze_token_health_run. cbn [snd].
    rewrite check_token_sustainability_run. cbn zeta.
    rewrite (get_token_data_again _ _ _ _ _ _ zero_volume_data). cbn [fst snd].
    eexists. split; [reflexivity|].
    cbn [mbind option_bind token_sustainability check_sustainability
         required_payouts sustainability_ratio map volume].
    rewrite mean_cons. unfold F.gtb.
    set (roi := default 0.01%R _). set (tax := default 0.05%R _). simpl.
    split; [f_equal; lra|]. rewrite bool_decide_eq_false_2; [done|lra]. }
  assert (sustainability_score (metrics eco) = PInf) as Hscore.
  { subst eco. rewrite analyze_multi_token_ecosystem_score.
    change (default (tokens Fixture.fresh) (Some ["hex"])) with ["hex"].
    fold results. rewrite Hres.
    unfold included_ratios. cbn -[F.gtb]. rewrite Hratio. cbn.
    rewrite decide_True; [done|lra]. }
  assert (Spec.sustainability_score results = Fin 0) as Hspec.
  { rewrite Hres. unfold Spec.sustainability_score, Spec.qualifies.
    cbn -[F.gtb]. rewrite Hratio. done. }
  split; [by exists rep|]. split; [done|]. split; [done|].
  rewrite Hscore, Hspec. done.
Qed.

(** ** Wallet activity analyzer (C4, C10) *)

Lemma check_wallet_activity_run net wallet_name wallet_address threshold s a :
  resolve_address s wallet_name wallet_address = Some a ->
  a <> "" ->
  check_wallet_activity net wallet_name wallet_address threshold s =
    (fst (get_pulsechain_wallet net a s)
       ≫= summarize (name_or_address wallet_name a) a threshold,
     snd (get_pulsechain_wallet net a s)).
Proof.
  intros Hres Ha. unfold check_wallet_activity, bind, get_self, ret.
  rewrite Hres. unfold truthy.
  apply String.eqb_neq in Ha. rewrite Ha. simpl.
  destruct (get_pulsechain_wallet net a s) as [[txs|] s']; done.
Qed.






Lemma self_transfer_transactions :
  fst (get_pulsechain_wallet Fixture.self_transfer "0xAb" Fixture.fresh)
    = Some [Tx "0xc3" 5 (5 / 1e18) "0xAB" "0xab" 300].
Proof. reflexivity. Qed.









(** The self-transfer of the example is counted twice: one transaction, one
    incoming and one outgoing. *)
Example self_transfer_counted_twice :
  exists sm,
    fst (check_wallet_activity Fixture.self_transfer None (Some "0xAb") 0.05
           Fixture.fresh) = Some sm
    /\ total_transactions sm = 1%nat
    /\ incoming_transactions sm = 1%nat
    /\ outgoing_transactions sm = 1%nat.
Proof.
  rewrite (check_wallet_activity_run Fixture.self_transfer None (Some "0xAb") 0.05
             Fixture.fresh "0xAb" eq_refl) by discriminate.
  rewrite self_transfer_transactions. eexists. split; [reflexivity|]. done.
Qed.

(** * Further properties *)

(** ** The monitor state across calls *)

Lemma extends_by_refl n s : extends_by n s s.
Proof.
  split; [done|]. split; [done|]. exists []. split; [by rewrite app_nil_r|simpl; lia].
Qed.

Lemma extends_by_trans n m s1 s2 s3 :
  extends_by n s1 s2 -> extends_by m s2 s3 -> extends_by (n + m) s1 s3.
Proof.
  intros ((Ht & Hw & Hx & Hr) & Hc & new & Hnew & Hlen)
         ((Ht' & Hw' & Hx' & Hr') & Hc' & new' & Hnew' & Hlen').
  split; [unfold same_config; repeat split; congruence|].
  split; [by etrans|].
  exists (new ++ new'). split.
  - by rewrite Hnew', Hnew, <- app_assoc.
  - rewrite length_app. lia.
Qed.

Lemma extends_by_weaken n m s s' : (n <= m)%nat -> extends_by n s s' -> extends_by m s s'.
Proof.
  intros Hle (Hcfg & Hc & new & Hnew & Hlen).
  split; [done|]. split; [done|]. exists new. split; [done|lia].
Qed.

Lemma get_token_data_extends net token_id days cur s :
  extends_by 1 s (snd (get_token_data net token_id days cur s)).
Proof.
  destruct (data_cache s !! cache_key token_id days cur) as [df|] eqn:Hc.
  - rewrite (get_token_data_hit _ _ _ _ _ _ Hc). apply extends_by_refl.
  - pose proof (get_token_data_miss net _ _ _ _ Hc) as H. cbn zeta in H.
    destruct H as (Hsent & Ht & Hw & Hx & Hr & Hcache).
    split; [done|]. split.
    + destruct (fst (get_token_data net token_id days cur s)).
      * rewrite Hcache. by apply insert_subseteq.
      * by rewrite Hcache.
    + exists [market_chart_url token_id days cur]. split; [done|simpl; lia].
Qed.

Lemma analyze_token_health_extends net token_id s :
  extends_by 1 s (snd (analyze_token_health net token_id s)).
Proof. rewrite analyze_token_health_run. apply get_token_data_extends. Qed.

Lemma check_token_sustainability_extends net token_id e s :
  extends_by 1 s (snd (check_token_sustainability net token_id e s)).
Proof. rewrite check_token_sustainability_run. apply get_token_data_extends. Qed.

Lemma ecosystem_loop_extends net token_ids : forall a s,
  extends_by (2 * length token_ids) s (snd (ecosystem_loop net token_ids a s)).
Proof.
  induction token_ids as [|token_id rest IH]; intros a s.
  - apply extends_by_refl.
  - simpl ecosystem_loop. unfold bind.
    pose proof (analyze_token_health_extends net token_id s) as H1.
    destruct (analyze_token_health net token_id s) as [h s1].
    pose proof (check_token_sustainability_extends net token_id true s1) as H2.
    destruct (check_token_sustainability net token_id true s1) as [sr s2].
    simpl in H1, H2.
    eapply extends_by_weaken;
      [|exact (extends_by_trans _ _ _ _ _ (extends_by_trans _ _ _ _ _ H1 H2)
                 (IH _ s2))].
    simpl. lia.
Qed.

(** X1: an ecosystem analysis leaves the configuration alone, keeps every
    cached series, and sends at most two requests per token. *)
Theorem analyze_multi_token_ecosystem_extends net token_ids s :
  extends_by (2 * length (default (tokens s) token_ids)) s
    (snd (analyze_multi_token_ecosystem net token_ids s)).
Proof.
  unfold analyze_multi_token_ecosystem, bind, get_self, ret.
  pose proof (ecosystem_loop_extends net (default (tokens s) token_ids)
                (Acc ∅ (Fin 0) [] []) s) as H.
  destruct (ecosystem_loop net _ _ s) as [a s']. exact H.
Qed.

Lemma get_token_data_fails net token_id days cur s :
  data_cache s !! cache_key token_id days cur = None ->
  fetch_fails (net (requests_sent s) (market_chart_url token_id days cur)) ->
  get_token_data net token_id days cur s =
    (None, Monitor (tokens s) (wallets s) (data_cache s) (tax_rates s)
             (roi_expectations s)
             (requests_sent s ++ [market_chart_url token_id days cur])).
Proof.
  intros Hmiss Hfail. unfold get_token_data. run. rewrite Hmiss. simpl.
  destruct (net _ _) as [|code body]; simpl; [done|].
  destruct Hfail as [Hcode|Hbody].
  - by rewrite decide_False.
  - case_decide; [|done]. destruct body; try done.
    by destruct (Hbody prices total_volumes).
Qed.

Lemma ecosystem_loop_cached net token_ids : forall a s,
  (forall t, t ∈ token_ids -> is_Some (data_cache s !! cache_key t 30 "usd")) ->
  snd (ecosystem_loop net token_ids a s) = s.
Proof.
  induction token_ids as [|token_id rest IH]; intros a s Hall; [done|].
  destruct (Hall token_id) as [df Hdf]; [apply list_elem_of_here|].
  simpl ecosystem_loop. unfold bind.
  rewrite analyze_token_health_run, (get_token_data_hit _ _ _ _ _ _ Hdf).
  cbn [fst snd].
  rewrite check_token_sustainability_run, (get_token_data_hit _ _ _ _ _ _ Hdf).
  cbn [fst snd]. apply IH. intros t Ht. apply Hall. by apply list_elem_of_further.
Qed.

(** X2: when the series of every token of the list is in the cache, an
    ecosystem analysis sends no request and leaves the monitor as it was. *)
Theorem analyze_multi_token_ecosystem_cached net token_ids s :
  (forall t, t ∈ default (tokens s) token_ids ->
     is_Some (data_cache s !! cache_key t 30 "usd")) ->
  snd (analyze_multi_token_ecosystem net token_ids s) = s.
Proof.
  intros Hall. unfold analyze_multi_token_ecosystem, bind, get_self, ret.
  pose proof (ecosystem_loop_cached net (default (tokens s) token_ids)
                (Acc ∅ (Fin 0) [] []) s Hall) as H.
  destruct (ecosystem_loop net _ _ s) as [a s']. exact H.
Qed.

Lemma analyze_multi_token_ecosystem_cached_witness :
  snd (analyze_multi_token_ecosystem More.offline (Some ["hex"]) More.warm)
    = More.warm.
Proof.
  apply (analyze_multi_token_ecosystem_cached More.offline (Some ["hex"]) More.warm).
  intros t Ht. apply list_elem_of_singleton in Ht as ->.
  eexists. apply lookup_singleton_eq.
Defined.

Lemma with_requests_app s new new' :
  with_requests (with_requests s new) new' = with_requests s (new ++ new').
Proof. unfold with_requests. simpl. by rewrite <- app_assoc. Qed.

Lemma ecosystem_loop_offline net token_ids : forall a s,
  (forall sent url, fetch_fails (net sent url)) ->
  (forall t, t ∈ token_ids -> data_cache s !! cache_key t 30 "usd" = None) ->
  ecosystem_loop net token_ids a s =
    (a, with_requests s (flat_map (fun t => [chart_url t; chart_url t]) token_ids)).
Proof.
  induction token_ids as [|token_id rest IH]; intros a s Hnet Hmiss.
  - simpl. unfold ret, with_requests. rewrite app_nil_r. by destruct s.
  - simpl ecosystem_loop. unfold bind.
    assert (data_cache s !! cache_key token_id 30 "usd" = None) as Hm
      by apply Hmiss, list_elem_of_here.
    rewrite analyze_token_health_run.
    rewrite (get_token_data_fails net token_id 30 "usd" s Hm (Hnet _ _)).
    cbn [fst snd]. fold (chart_url token_id).
    fold (with_requests s [chart_url token_id]).
    rewrite check_token_sustainability_run. cbn zeta.
    rewrite (get_token_data_fails net token_id 30 "usd"
               (with_requests s [chart_url token_id]) Hm (Hnet _ _)).
    cbn [fst snd mbind option_bind add_health add_sustainability].
    fold (chart_url token_id).
    fold (with_requests (with_requests s [chart_url token_id]) [chart_url token_id]).
    rewrite with_requests_app, IH; [|done|].
    + by rewrite with_requests_app.
    + intros t Ht. simpl. apply Hmiss. by apply list_elem_of_further.
Qed.

(** X3: when every request fails and no series of the listed tokens is
    cached, the ecosystem report is empty (no token, volume 0, average
    price change 0, score 0, status Critical), the cache is left alone, and
    each token was requested twice: once for its health and once more for
    its sustainability. *)
Theorem analyze_multi_token_ecosystem_offline net token_ids s :
  (forall sent url, fetch_fails (net sent url)) ->
  (forall t, t ∈ default (tokens s) token_ids ->
     data_cache s !! cache_key t 30 "usd" = None) ->
  let out := analyze_multi_token_ecosystem net token_ids s in
  eco_tokens (fst out) = ∅
  /\ total_volume (metrics (fst out)) = Fin 0
  /\ avg_price_change (metrics (fst out)) = Fin 0
  /\ sustainability_score (metrics (fst out)) = Fin 0
  /\ em_health_status (metrics (fst out)) = Critical
  /\ data_cache (snd out) = data_cache s
  /\ requests_sent (snd out) =
       requests_sent s
       ++ flat_map (fun t => [chart_url t; chart_url t]) (default (tokens s) token_ids).
Proof.
  intros Hnet Hmiss out. subst out.
  unfold analyze_multi_token_ecosystem, bind, get_self, ret.
  rewrite (ecosystem_loop_offline net _ _ s Hnet Hmiss). simpl.
  split_and!; try done.
  unfold assess. simpl. rewrite bool_decide_eq_true_2; [done|lra].
Qed.

Lemma analyze_multi_token_ecosystem_offline_witness :
  let out := analyze_multi_token_ecosystem More.offline None Fixture.fresh in
  eco_tokens (fst out) = ∅
  /\ total_volume (metrics (fst out)) = Fin 0
  /\ avg_price_change (metrics (fst out)) = Fin 0
  /\ sustainability_score (metrics (fst out)) = Fin 0
  /\ em_health_status (metrics (fst out)) = Critical
  /\ data_cache (snd out) = data_cache Fixture.fresh
  /\ requests_sent (snd out) =
       requests_sent Fixture.fresh
       ++ flat_map (fun t => [chart_url t; chart_url t])
            (default (tokens Fixture.fresh) None).
Proof.
  apply (analyze_multi_token_ecosystem_offline More.offline None Fixture.fresh).
  - intros sent url. exact I.
  - intros t _. apply lookup_empty.
Defined.

(** X4: a token whose first request fails is requested again by the
    sustainability check of the same pass.  When this second request brings
    a chart, the token has no health report and adds nothing to the total
    volume, but its sustainability ratio enters the score, and its series is
    cached. *)
Theorem retried_fetch_feeds_score net t s p v :
  data_cache s !! cache_key t 30 "usd" = None ->
  fetch_fails (net (requests_sent s) (chart_url t)) ->
  net (requests_sent s ++ [chart_url t]) (chart_url t) = Http 200 (MarketChart p v) ->
  let out := analyze_multi_token_ecosystem net (Some [t]) s in
  eco_tokens (fst out) = ∅
  /\ total_volume (metrics (fst out)) = Fin 0
  /\ sustainability_score (metrics (fst out)) =
       average (included_ratios [token_sustainability s t true (merge p v)])
  /\ data_cache (snd out) !! cache_key t 30 "usd" = Some (merge p v)
  /\ requests_sent (snd out) = requests_sent s ++ [chart_url t; chart_url t].
Proof.
  intros Hmiss Hfail Hchart out. subst out.
  unfold analyze_multi_token_ecosystem, bind, get_self, ret. cbn [default].
  simpl ecosystem_loop. unfold bind, ret.
  rewrite analyze_token_health_run.
  rewrite (get_token_data_fails net t 30 "usd" s Hmiss Hfail).
  cbn [fst snd]. fold (chart_url t). fold (with_requests s [chart_url t]).
  rewrite check_token_sustainability_run. cbn zeta.
  rewrite (get_token_data_stores net t 30 "usd" (with_requests s [chart_url t])
             p v Hmiss Hchart).
  cbn [fst snd mbind option_bind add_health].
  set (sr := token_sustainability _ t true (merge p v)).
  assert (sr = token_sustainability s t true (merge p v)) as -> by done.
  cbn [metrics eco_tokens total_volume sustainability_score acc_tokens
       acc_total_volume].
  split; [by destruct (token_sustainability s t true (merge p v)) as [rep|];
            cbn -[F.gtb]; try destruct (F.gtb _ _)|].
  split; [by destruct (token_sustainability s t true (merge p v)) as [rep|];
            cbn -[F.gtb]; try destruct (F.gtb _ _)|].
  split.
  { f_equal. pose proof (add_scores t None
      (token_sustainability s t true (merge p v)) (Acc ∅ (Fin 0) [] [])) as H.
    simpl add_health in H. exact H. }
  split.
  - destruct (token_sustainability s t true (merge p v)) as [rep|];
      cbn -[F.gtb]; try destruct (F.gtb _ _); cbn; apply lookup_insert_eq.
  - destruct (token_sustainability s t true (merge p v)) as [rep|];
      cbn -[F.gtb]; try destruct (F.gtb _ _); cbn; by rewrite <- app_assoc.
Qed.

Lemma retried_fetch_feeds_score_witness :
  let out := analyze_multi_token_ecosystem Net.flaky (Some ["hex"]) Fixture.fresh in
  eco_tokens (fst out) = ∅
  /\ total_volume (metrics (fst out)) = Fin 0
  /\ sustainability_score (metrics (fst out)) =
       average (included_ratios
                  [token_sustainability Fixture.fresh "hex" true
                     (merge [(0%Z, 1%R)] [(0%Z, 2%R)])])
  /\ data_cache (snd out) !! cache_key "hex" 30 "usd"
       = Some (merge [(0%Z, 1%R)] [(0%Z, 2%R)])
  /\ requests_sent (snd out)
       = requests_sent Fixture.fresh ++ [chart_url "hex"; chart_url "hex"].
Proof.
  apply (retried_fetch_feeds_score Net.flaky "hex" Fixture.fresh).
  - apply lookup_empty.
  - exact I.
  - reflexivity.
Defined.

(** ** Ecosystem score and status *)

Lemma above_zero_split xs :
  Forall above_zero xs ->
  PInf ∈ xs \/ exists rs, xs = map Fin rs /\ Forall (fun r => 0 < r)%R rs.
Proof.
  induction 1 as [|x xs Hx _ IH].
  - right. exists []. split; [done|constructor].
  - destruct IH as [Hin|(rs & -> & Hrs)]; [left; by apply list_elem_of_further|].
    destruct x as [r| | |]; try done.
    + right. exists (r :: rs). split; [done|]. constructor; [|done].
      unfold above_zero, F.gtb in Hx. simpl in Hx. by apply bool_decide_eq_true_1 in Hx.
    + left. apply list_elem_of_here.
Qed.

Lemma average_range xs :
  Forall above_zero xs ->
  average xs = PInf \/ exists x, average xs = Fin x /\ (0 <= x)%R.
Proof.
  intros Hall. destruct (above_zero_split xs Hall) as [Hin|(rs & -> & Hrs)].
  - left. by apply average_pinf.
  - right. destruct rs as [|r rs].
    + exists 0%R. split; [done|lra].
    + eexists. split; [by apply average_fin|].
      apply Rmult_le_pos.
      * apply total_nonneg. eapply Forall_impl; [exact Hrs|]. simpl. intros; lra.
      * left. apply Rinv_0_lt_compat, lt_0_INR. simpl. lia.
Qed.

Lemma analyze_multi_token_ecosystem_status net token_ids s :
  em_health_status (metrics (fst (analyze_multi_token_ecosystem net token_ids s)))
    = assess (sustainability_score
                (metrics (fst (analyze_multi_token_ecosystem net token_ids s)))).
Proof.
  unfold analyze_multi_token_ecosystem, bind, get_self, ret.
  by destruct (ecosystem_loop net _ _ s) as [a s'].
Qed.

(** X5: the sustainability score of an ecosystem analysis is a real number
    that is not negative, or +inf; it is never NaN.  The status is Critical
    exactly when the score is below 1, Warning exactly when it is at least 1
    and below 1.5, and Healthy otherwise, which includes the score +inf. *)
Theorem sustainability_score_range net token_ids s :
  let m := metrics (fst (analyze_multi_token_ecosystem net token_ids s)) in
  (sustainability_score m = PInf
   \/ exists x, sustainability_score m = Fin x /\ (0 <= x)%R)
  /\ (em_health_status m = Critical
      <-> exists x, sustainability_score m = Fin x /\ (x < 1)%R)
  /\ (em_health_status m = Warning
      <-> exists x, sustainability_score m = Fin x /\ (1 <= x < 1.5)%R)
  /\ (em_health_status m = Healthy
      <-> sustainability_score m = PInf
          \/ exists x, sustainability_score m = Fin x /\ (1.5 <= x)%R).
Proof.
  intros m.
  assert (sustainability_score m = PInf
          \/ exists x, sustainability_score m = Fin x /\ (0 <= x)%R) as Hrange.
  { subst m. rewrite analyze_multi_token_ecosystem_score.
    apply average_range, included_ratios_above_zero. }
  split; [exact Hrange|].
  subst m. rewrite analyze_multi_token_ecosystem_status.
  set (score := sustainability_score _) in *.
  destruct Hrange as [->|(x & -> & Hx)]; unfold assess; simpl.
  - split_and!; split; try done.
    + intros (x & Hx & _). done.
    + intros (x & Hx & _). done.
    + by left.
  - repeat case_bool_decide; split_and!; split; try done;
      try (intros (y & [= <-] & Hy); lra);
      try (intros [Hy|(y & [= <-] & Hy)]; [done|lra]);
      try (intros _; exists x; split; [done|lra]);
      try (intros _; right; exists x; split; [done|lra]).
Qed.

Lemma add_sustainability_keeps sr a :
  acc_tokens (add_sustainability sr a) = acc_tokens a
  /\ acc_total_volume (add_sustainability sr a) = acc_total_volume a
  /\ price_changes (add_sustainability sr a) = price_changes a.
Proof.
  destruct sr as [rep|]; [|done]. unfold add_sustainability.
  by destruct (F.gtb _ _).
Qed.

Lemma reported_cons t h rs :
  reported ((t, h) :: rs) =
    match h with Some r => [(t, r)] | None => [] end ++ reported rs.
Proof. unfold reported. by destruct h. Qed.

Lemma ecosystem_loop_health net token_ids : forall a s,
  let rs := reported (fst (health_results net token_ids s)) in
  let a' := fst (ecosystem_loop net token_ids a s) in
  acc_total_volume a'
    = foldl F.add (acc_total_volume a) (map (fun x => current_volume (snd x)) rs)
  /\ price_changes a'
     = price_changes a ++ map (fun x => price_change_30d (snd x)) rs
  /\ acc_tokens a'
     = foldl (fun m x => <[fst x := snd x]> m) (acc_tokens a) rs.
Proof.
  induction token_ids as [|token_id rest IH]; intros a s.
  - simpl. by rewrite app_nil_r.
  - simpl. unfold bind, ret.
    destruct (analyze_token_health net token_id s) as [h s1].
    destruct (check_token_sustainability net token_id true s1) as [sr s2].
    specialize (IH (add_sustainability sr (add_health token_id h a)) s2).
    destruct (health_results net rest s2) as [others s3].
    cbn [fst snd] in *. cbn zeta in IH.
    destruct IH as (Hv & Hp & Ht).
    destruct (add_sustainability_keeps sr (add_health token_id h a)) as (Kt & Kv & Kp).
    rewrite Hv, Hp, Ht, Kt, Kv, Kp, reported_cons.
    destruct h as [hr|]; simpl; [|done]. by rewrite <- app_assoc.
Qed.

Lemma token_health_fields token_id df rep :
  token_health token_id df = Some rep ->
  hr_token rep = token_id /\ exists v, current_volume rep = Fin v.
Proof.
  destruct df as [|first rest]; [done|]. intros [= <-]. simpl. eauto.
Qed.

Lemma health_results_fields net token_ids : forall s t h,
  (t, Some h) ∈ fst (health_results net token_ids s) ->
  t ∈ token_ids /\ hr_token h = t /\ exists v, current_volume h = Fin v.
Proof.
  induction token_ids as [|token_id rest IH]; intros s t h; simpl.
  - intros Hin. by apply elem_of_nil in Hin.
  - unfold bind, ret.
    destruct (analyze_token_health net token_id s) as [hr s1] eqn:Hhr.
    destruct (check_token_sustainability net token_id true s1) as [sr s2].
    specialize (IH s2 t h).
    destruct (health_results net rest s2) as [others s3]. cbn [fst snd] in *.
    intros [[= -> <-]|Hin]%elem_of_cons.
    + split; [apply list_elem_of_here|].
      rewrite analyze_token_health_run in Hhr. injection Hhr as Hhr _.
      destruct (fst (get_token_data net token_id 30 "usd" s)) as [df|]; [|done].
      by apply (token_health_fields token_id df).
    + destruct (IH Hin) as (? & ? & ?). split; [by apply list_elem_of_further|done].
Qed.

Lemma reported_elem rs t h : (t, h) ∈ reported rs <-> (t, Some h) ∈ rs.
Proof.
  unfold reported. rewrite list_elem_of_omap. split.
  - intros ([t' [h'|]] & Hin & Heq); simpl in Heq; [|done].
    by injection Heq as -> ->.
  - intros Hin. by exists (t, Some h).
Qed.

Lemma foldl_insert_lookup (rs : list (string * health_report)) :
  forall (m : gmap string health_report) t h,
  foldl (fun m x => <[fst x := snd x]> m) m rs !! t = Some h ->
  (t, h) ∈ rs \/ m !! t = Some h.
Proof.
  induction rs as [|[t' h'] rs IH]; intros m t h; [by right|].
  simpl foldl. intros [Hin|Hm]%IH; [left; by apply list_elem_of_further|].
  destruct (decide (t' = t)) as [->|Hne].
  - rewrite lookup_insert_eq in Hm. injection Hm as ->. left. apply list_elem_of_here.
  - rewrite lookup_insert_ne in Hm by done. by right.
Qed.




(** ** The ledger and the wallet summary *)

Lemma get_pulsechain_wallet_state net a s :
  snd (get_pulsechain_wallet net a s) = with_requests s [txlist_url a].
Proof.
  unfold get_pulsechain_wallet, bind, http_get, ret. simpl.
  destruct (net _ _) as [|code body]; [done|].
  case_decide; [|done]. destruct body as [| status result |]; try done.
  destruct (String.eqb status "1"); [|done]. by destruct result.
Qed.

(** X7: a ledger lookup sends exactly one request, for the transaction list
    of the address, and changes nothing else in the monitor.  It returns
    transactions exactly when the answer has status code 200, the status
    field "1" and a result that is not empty; they are then the entries of
    the result in their order, each with value_eth = value / 1e18. *)
Theorem get_pulsechain_wallet_result net a s :
  let out := get_pulsechain_wallet net a s in
  let r := net (requests_sent s) (txlist_url a) in
  snd out = with_requests s [txlist_url a]
  /\ (forall txs, fst out = Some txs <->
        exists raw, r = Http 200 (TxList "1" raw) /\ raw <> []
                    /\ txs = map to_transaction raw)
  /\ (forall txs, fst out = Some txs ->
        txs <> []
        /\ Forall (fun t => value_eth t = (IZR (value t) / 1e18)%R) txs).
Proof.
  intros out r.
  assert (forall txs, fst out = Some txs <->
            exists raw, r = Http 200 (TxList "1" raw) /\ raw <> []
                        /\ txs = map to_transaction raw) as Hiff.
  { intros txs. subst out r.
    unfold get_pulsechain_wallet, bind, http_get, ret. simpl.
    destruct (net _ _) as [|code body]; simpl.
    { split; [done|]. by intros (raw & ? & _). }
    case_decide as Hcode; simpl.
    2: { split; [done|]. intros (raw & [= -> _] & _). done. }
    subst code. destruct body as [| status result |]; simpl;
      try (split; [done|]; by intros (raw & ? & _)).
    destruct (String.eqb_spec status "1") as [->|Hne]; simpl.
    2: { split; [done|]. intros (raw & [= -> _] & _). done. }
    destruct result as [|t0 result]; simpl.
    - split; [done|]. intros (raw & [= <-] & Hne & _). done.
    - split.
      + intros [= <-]. by exists (t0 :: result).
      + intros (raw & [= <-] & _ & ->). done. }
  split; [apply get_pulsechain_wallet_state|]. split; [exact Hiff|].
  intros txs (raw & _ & Hne & ->)%Hiff. split.
  - by destruct raw.
  - apply Forall_forall. intros t (rt & -> & _)%list_elem_of_fmap. done.
Qed.

(** X8: a wallet check without a usable address (no registered name, and no
    address or an empty one) returns nothing and leaves the monitor as it
    was; with a usable address it sends exactly one request, for the
    transactions of that address, and the address registered under the name
    is preferred to the one passed. *)
Theorem check_wallet_activity_request net wallet_name wallet_address threshold s :
  let out := check_wallet_activity net wallet_name wallet_address threshold s in
  match resolve_address s wallet_name wallet_address with
  | None => out = (None, s)
  | Some a =>
      if decide (a = "") then out = (None, s)
      else snd out = with_requests s [txlist_url a]
  end
  /\ (forall n a, wallet_name = Some n -> n <> "" -> wallets s !! n = Some a ->
        resolve_address s wallet_name wallet_address = Some a).
Proof.
  intros out. split.
  - destruct (resolve_address s wallet_name wallet_address) as [a|] eqn:Hres.
    + case_decide as Ha.
      * subst a out. unfold check_wallet_activity, bind, get_self, ret.
        by rewrite Hres.
      * subst out. rewrite (check_wallet_activity_run _ _ _ _ _ a Hres Ha).
        apply get_pulsechain_wallet_state.
    + subst out. unfold check_wallet_activity, bind, get_self, ret.
      by rewrite Hres.
  - intros n a -> Hn Hw. unfold resolve_address, truthy.
    apply String.eqb_neq in Hn. by rewrite Hn, Hw.
Qed.

Lemma filter_length_mono {A} (f g : A -> bool) l :
  (forall x, f x = true -> g x = true) ->
  (length (List.filter f l) <= length (List.filter g l))%nat.
Proof.
  intros Himp. induction l as [|x l IH]; [done|]. simpl.
  destruct (f x) eqn:Hf.
  - rewrite (Himp x Hf). simpl. lia.
  - destruct (g x); simpl; lia.
Qed.

Lemma filter_length_all {A} (f : A -> bool) l :
  (forall x, f x = true) -> length (List.filter f l) = length l.
Proof.
  intros Hall. induction l as [|x l IH]; [done|]. simpl.
  rewrite Hall. simpl. by rewrite IH.
Qed.

Lemma filter_length_bound {A} (f : A -> bool) l :
  (length (List.filter f l) <= length l)%nat.
Proof. induction l as [|x l IH]; simpl; [lia|]. destruct (f x); simpl; lia. Qed.

Lemma check_wallet_activity_summary net wallet_name wallet_address threshold s :
  fst (check_wallet_activity net wallet_name wallet_address threshold s) =
    match resolve_address s wallet_name wallet_address with
    | Some a =>
        if decide (a = "") then None
        else fst (get_pulsechain_wallet net a s)
               ≫= summarize (name_or_address wallet_name a) a threshold
    | None => None
    end.
Proof.
  destruct (resolve_address s wallet_name wallet_address) as [a|] eqn:Hres.
  - case_decide as Ha.
    + subst a. unfold check_wallet_activity, bind, get_self, ret. by rewrite Hres.
    + by rewrite (check_wallet_activity_run _ _ _ _ _ a Hres Ha).
  - unfold check_wallet_activity, bind, get_self, ret. by rewrite Hres.
Qed.

(** X9: two wallet checks from the same monitor state that differ only in
    the threshold both give a summary or both give none.  The number of
    large transactions never exceeds the total, does not grow when the
    threshold grows, and equals the total for a negative threshold; the
    other fields of the summary do not depend on the threshold. *)
Theorem large_transactions_threshold net wallet_name wallet_address thr1 thr2 s :
  match fst (check_wallet_activity net wallet_name wallet_address thr1 s),
        fst (check_wallet_activity net wallet_name wallet_address thr2 s) with
  | Some sm1, Some sm2 =>
      (large_transactions sm1 <= total_transactions sm1)%nat
      /\ ((thr1 <= thr2)%R -> (large_transactions sm2 <= large_transactions sm1)%nat)
      /\ ((thr1 < 0)%R -> large_transactions sm1 = total_transactions sm1)
      /\ wallet sm1 = wallet sm2
      /\ total_transactions sm1 = total_transactions sm2
      /\ incoming_transactions sm1 = incoming_transactions sm2
      /\ outgoing_transactions sm1 = outgoing_transactions sm2
      /\ latest_transaction sm1 = latest_transaction sm2
  | None, None => True
  | _, _ => False
  end.
Proof.
  rewrite !check_wallet_activity_summary.
  destruct (resolve_address s wallet_name wallet_address) as [a|]; [|done].
  case_decide; [done|].
  destruct (fst (get_pulsechain_wallet net a s)) as [[|t rest]|]; try done.
  simpl. split_and!; try done.
  - apply (filter_length_bound (is_large thr1) (t :: rest)).
  - intros Hle. apply (filter_length_mono (is_large thr2) (is_large thr1) (t :: rest)).
    intros x. unfold is_large. intros Hx%bool_decide_eq_true_1.
    apply bool_decide_eq_true_2. lra.
  - intros Hneg. apply (filter_length_all (is_large thr1) (t :: rest)).
    intros x. unfold is_large. apply bool_decide_eq_true_2.
    pose proof (Rabs_pos (value_eth x)). lra.
Qed.

(** ** Charts and token health *)

Lemma merge_cons p prices total_volumes :
  merge (p :: prices) total_volumes =
    map (fun v => Row (fst p) (snd p) (snd v))
        (filter (fun v => fst v = fst p) total_volumes)
    ++ merge prices total_volumes.
Proof. done. Qed.

Lemma merge_skip prices v0 total_volumes :
  fst v0 ∉ map fst prices ->
  merge prices (v0 :: total_volumes) = merge prices total_volumes.
Proof.
  induction prices as [|p prices IH]; intros Hnot; [done|].
  rewrite !merge_cons, IH.
  - rewrite filter_cons_False; [done|].
    intros Heq. apply Hnot. simpl. rewrite Heq. apply list_elem_of_here.
  - intros Hin. apply Hnot. simpl. by apply list_elem_of_further.
Qed.

Lemma filter_no_match (t : Z) (total_volumes : list (Z * R)) :
  t ∉ map fst total_volumes ->
  filter (fun v => fst v = t) total_volumes = [].
Proof.
  induction total_volumes as [|v vs IH]; intros Hnot; [done|].
  rewrite filter_cons_False.
  - apply IH. intros Hin. apply Hnot. simpl. by apply list_elem_of_further.
  - intros Heq. apply Hnot. simpl. rewrite Heq. apply list_elem_of_here.
Qed.

(** X10: the merged frame is the inner join of the two series on the
    timestamp: it has a row (t, p, v) exactly when (t, p) is a price point
    and (t, v) a volume point.  When both series come from the same rows
    and no timestamp occurs twice, the merge gives these rows back, in
    their order. *)
Theorem merge_inner_join prices total_volumes :
  (forall t p v, Row t p v ∈ merge prices total_volumes
                 <-> (t, p) ∈ prices /\ (t, v) ∈ total_volumes)
  /\ (forall rows,
        NoDup (map timestamp rows) ->
        merge (map (fun r => (timestamp r, price r)) rows)
              (map (fun r => (timestamp r, volume r)) rows) = rows).
Proof.
  split.
  - intros t p v. unfold merge. split.
    + intros Hin. apply list_elem_of_In, in_flat_map in Hin as ([t' p'] & Hp & Hrow).
      simpl in Hrow.
      apply list_elem_of_In, list_elem_of_fmap in Hrow as ([t'' v'] & [= -> -> ->] & Hv).
      apply list_elem_of_filter in Hv as [Heq Hv]. simpl in Heq. subst t''.
      split; [by apply list_elem_of_In|done].
    + intros [Hp Hv]. apply list_elem_of_In, in_flat_map.
      exists (t, p). split; [by apply list_elem_of_In|].
      simpl. apply list_elem_of_In, list_elem_of_fmap. exists (t, v).
      split; [done|]. by apply list_elem_of_filter.
  - induction rows as [|[t p v] rows IH]; intros Hnd; [done|].
    apply NoDup_cons in Hnd as [Hnot Hnd]. cbn [map timestamp price volume] in *.
    rewrite merge_cons. cbn [fst snd].
    rewrite filter_cons_True by done.
    rewrite filter_no_match.
    + simpl. f_equal. rewrite merge_skip; [by apply IH|].
      simpl. by rewrite map_map.
    + by rewrite map_map.
Qed.

Lemma last_elem {A} (x : A) l d : List.last (x :: l) d ∈ x :: l.
Proof.
  revert x. induction l as [|y l IH]; intros x; [apply list_elem_of_here|].
  change (List.last (x :: y :: l) d) with (List.last (y :: l) d).
  apply list_elem_of_further, IH.
Qed.

(** X11: for a series that starts at a positive price and ends at a price
    that is not negative, the report's price change is the relative change
    from the first to the last price in percent: a real number, never below
    -100, positive exactly when the price rose and 0 exactly when the last
    price equals the first. *)
Theorem price_change_bounds net token_id s first rest :
  fst (get_token_data net token_id 30 "usd" s) = Some (first :: rest) ->
  let p0 := price first in
  let p1 := price (List.last (first :: rest) first) in
  (0 < p0)%R -> (0 <= p1)%R ->
  exists rep c,
    fst (analyze_token_health net token_id s) = Some rep
    /\ current_price rep = Fin p1
    /\ price_change_30d rep = Fin c
    /\ c = ((p1 - p0) / p0 * 100)%R
    /\ (-100 <= c)%R
    /\ (0 < c <-> p0 < p1)%R
    /\ (c = 0 <-> p1 = p0)%R.
Proof.
  intros Hdata p0 p1 Hp0 Hp1. rewrite analyze_token_health_run, Hdata.
  eexists. exists ((p1 - p0) / p0 * 100)%R. split; [reflexivity|].
  cbn [current_price price_change_30d]. fold p1 p0.
  split; [done|]. split.
  { simpl F.sub. rewrite div_fin by lra. simpl. f_equal; lra. }
  split; [done|].
  assert (0 < / p0)%R as Hinv by (by apply Rinv_0_lt_compat).
  assert ((p1 - p0) / p0 * 100 = (p1 - p0) * (/ p0 * 100))%R as -> by (unfold Rdiv; ring).
  assert (0 < / p0 * 100)%R as Hk by lra.
  set (k := (/ p0 * 100)%R) in *.
  assert (p0 * k = 100)%R as Hpk by (subst k; field; lra).
  split_and!.
  - nra.
  - split; intros; nra.
  - split; intros; nra.
Qed.

Lemma price_change_bounds_witness :
  let p0 := price (Row 0 1 1) in
  let p1 := price (List.last [Row 0 1 1; Row 1 3 1] (Row 0 1 1)) in
  exists rep c,
    fst (analyze_token_health Fixture.one_three "hex" Fixture.fresh) = Some rep
    /\ current_price rep = Fin p1
    /\ price_change_30d rep = Fin c
    /\ c = ((p1 - p0) / p0 * 100)%R
    /\ (-100 <= c)%R
    /\ (0 < c <-> p0 < p1)%R
    /\ (c = 0 <-> p1 = p0)%R.
Proof.
  apply (price_change_bounds Fixture.one_three "hex" Fixture.fresh
           (Row 0 1 1) [Row 1 3 1]).
  - exact one_three_data.
  - simpl. lra.
  - simpl. lra.
Defined.



Lemma total_const c xs :
  Forall (fun x => x = c) xs -> Series.total xs = (INR (length xs) * c)%R.
Proof.
  induction 1 as [|x xs -> _ IH]; [simpl; lra|].
  change (Series.total (c :: xs)) with (c + Series.total xs)%R.
  rewrite IH. change (length (c :: xs)) with (S (length xs)). rewrite S_INR. lra.
Qed.

Lemma sq_dev_const c xs : Forall (fun x => x = c) xs -> Series.sq_dev c xs = 0%R.
Proof.
  induction 1 as [|x xs -> _ IH]; [done|].
  unfold Series.sq_dev in *. simpl. rewrite IH. lra.
Qed.

Lemma mean_const c x xs :
  Forall (fun x => x = c) (x :: xs) ->
  (Series.total (x :: xs) / INR (length (x :: xs)))%R = c.
Proof.
  intros Hall. rewrite (total_const c) by done. field.
  apply not_0_INR. simpl. lia.
Qed.

(** X13: a series of at least two points that all carry the same positive
    price and the same positive volume is reported with price change 0,
    volume change 0, volatility 0 and normal volume health. *)
Theorem constant_series_report net token_id s first rest :
  fst (get_token_data net token_id 30 "usd" s) = Some (first :: rest) ->
  rest <> [] ->
  Forall (fun r => price r = price first /\ volume r = volume first) rest ->
  (0 < price first)%R -> (0 < volume first)%R ->
  exists rep,
    fst (analyze_token_health net token_id s) = Some rep
    /\ current_price rep = Fin (price first)
    /\ current_volume rep = Fin (volume first)
    /\ price_change_30d rep = Fin 0
    /\ volume_change_30d rep = Fin 0
    /\ price_volatility rep = Fin 0
    /\ hr_volume_health rep = Normal.
Proof.
  intros Hdata Hne Hall Hp Hv. rewrite analyze_token_health_run, Hdata.
  assert (Forall (fun r => price r = price first /\ volume r = volume first)
            (first :: rest)) as Hall' by (by constructor).
  assert (price (List.last (first :: rest) first) = price first
          /\ volume (List.last (first :: rest) first) = volume first) as [Hlp Hlv].
  { apply (proj1 (Forall_forall _ _) Hall'), last_elem. }
  assert (Forall (fun x => x = price first) (map price (first :: rest))) as Hprices.
  { apply Forall_fmap. eapply Forall_impl; [exact Hall'|]. by intros r [? _]. }
  assert (Forall (fun x => x = volume first) (map volume (first :: rest))) as Hvols.
  { apply Forall_fmap. eapply Forall_impl; [exact Hall'|]. by intros r [_ ?]. }
  eexists. split; [reflexivity|].
  cbn [current_price current_volume price_change_30d volume_change_30d
       price_volatility hr_volume_health].
  rewrite Hlp, Hlv.
  change (map price (first :: rest)) with (price first :: map price rest) in *.
  change (map volume (first :: rest)) with (volume first :: map volume rest) in *.
  split; [done|]. split; [done|].
  split; [simpl F.sub; rewrite div_fin by lra; simpl; f_equal; field; lra|].
  split; [simpl F.sub; rewrite div_fin by lra; simpl; f_equal; field; lra|].
  split.
  - rewrite volatility_value.
    + rewrite (mean_const (price first)) by done.
      rewrite sq_dev_const by done.
      unfold Rdiv at 2. rewrite Rmult_0_l, sqrt_0. f_equal. field. lra.
    + destruct rest; [done|]. simpl. lia.
    + rewrite (mean_const (price first)) by done. done.
  - rewrite mean_cons, (mean_const (volume first)) by done.
    unfold F.gtb. simpl.
    rewrite !bool_decide_eq_false_2 by lra. done.
Qed.

Lemma constant_series_report_witness :
  exists rep,
    fst (analyze_token_health Chart.flat "hex" Fixture.fresh) = Some rep
    /\ current_price rep = Fin (price (Row 0 2 5))
    /\ current_volume rep = Fin (volume (Row 0 2 5))
    /\ price_change_30d rep = Fin 0
    /\ volume_change_30d rep = Fin 0
    /\ price_volatility rep = Fin 0
    /\ hr_volume_health rep = Normal.
Proof.
  apply (constant_series_report Chart.flat "hex" Fixture.fresh
           (Row 0 2 5) [Row 1 2 5]).
  - exact (fresh_fetch Chart.flat "hex" [(0%Z, 2%R); (1%Z, 2%R)]
             [(0%Z, 5%R); (1%Z, 5%R)] eq_refl).
  - done.
  - by repeat constructor.
  - simpl. lra.
  - simpl. lra.
Defined.

(** ** Sustainability reports *)

(** X14: for real inputs with positive required payouts the ratio is a real
    number, and the token is sustainable exactly when the ratio is at least
    1.  When the required payouts are 0 or negative the ratio is +inf, and
    the token is sustainable exactly when the revenue is not below the
    payouts. *)
Theorem sustainable_iff_ratio token_id v t sv r :
  let rep := check_sustainability token_id (Fin v) (Fin t) (Fin sv) (Fin r) in
  ((0 < sv * r)%R ->
     exists q, sustainability_ratio rep = Fin q
               /\ q = (v * t / (sv * r))%R
               /\ (is_sustainable rep = true <-> (1 <= q)%R))
  /\ ((sv * r <= 0)%R ->
        sustainability_ratio rep = PInf
        /\ (is_sustainable rep = true <-> (sv * r <= v * t)%R)).
Proof.
  intros rep. subst rep. unfold check_sustainability.
  cbn [sustainability_ratio is_sustainable].
  unfold F.geb, F.gtb. simpl F.mul. simpl F.ltb. simpl F.leb.
  set (rev := (v * t)%R). set (req := (sv * r)%R). split.
  - intros Hpos. rewrite bool_decide_eq_true_2 by lra.
    rewrite div_fin by lra. eexists. split; [reflexivity|]. split; [done|].
    rewrite bool_decide_eq_true.
    assert (0 < / req)%R as Hinv by (by apply Rinv_0_lt_compat).
    assert (req * / req = 1)%R as Hone by (field; lra).
    unfold Rdiv. split; intros; nra.
  - intros Hle. rewrite bool_decide_eq_false_2 by lra. split; [done|].
    apply bool_decide_eq_true.
Qed.

(** X15: without the supply estimate the supply value is the fixed 10
    million.  For a token with data and a positive daily ROI, the required
    payouts are 10 million times the ROI, the ratio is mean volume times tax
    rate over these payouts, and the token is sustainable exactly when the
    mean volume times the tax rate reaches them. *)
Theorem fixed_supply_sustainability net token_id s first rest :
  fst (get_token_data net token_id 30 "usd" s) = Some (first :: rest) ->
  let tax := default 0.05%R (tax_rates s !! token_id) in
  let roi := default 0.01%R (roi_expectations s !! token_id) in
  let avg := (Series.total (map volume (first :: rest))
              / INR (length (first :: rest)))%R in
  (0 < roi)%R ->
  exists rep,
    fst (check_token_sustainability net token_id false s) = Some rep
    /\ daily_volume rep = Fin avg
    /\ total_supply_value rep = Fin 10000000
    /\ required_payouts rep = Fin (10000000 * roi)
    /\ sustainability_ratio rep = Fin (avg * tax / (10000000 * roi))
    /\ (is_sustainable rep = true <-> (10000000 * roi <= avg * tax)%R).
Proof.
  intros Hdata tax roi avg Hroi.
  rewrite check_token_sustainability_run, Hdata. cbn [fst snd].
  pose proof (get_token_data_config net token_id 30 "usd" s) as (_ & _ & Htax & Hroi').
  cbn zeta in Htax, Hroi'.
  cbn [mbind option_bind token_sustainability]. rewrite Htax, Hroi'.
  fold tax roi. eexists. split; [reflexivity|].
  change (map volume (first :: rest)) with (volume first :: map volume rest) in *.
  rewrite mean_cons. cbn [length] in *. rewrite length_map in *. fold avg.
  unfold check_sustainability.
  cbn [daily_volume total_supply_value required_payouts sustainability_ratio
       is_sustainable].
  unfold F.geb, F.gtb. simpl F.mul. simpl F.ltb. simpl F.leb.
  split_and!; try done.
  - rewrite bool_decide_eq_true_2 by lra. apply div_fin. lra.
  - apply bool_decide_eq_true.
Qed.

Lemma fixed_supply_sustainability_witness :
  let tax := default 0.05%R (tax_rates More.warm !! "hex") in
  let roi := default 0.01%R (roi_expectations More.warm !! "hex") in
  let avg := (Series.total (map volume [Row 0 1 1; Row 1 3 1]) / INR 2)%R in
  exists rep,
    fst (check_token_sustainability More.offline "hex" false More.warm) = Some rep
    /\ daily_volume rep = Fin avg
    /\ total_supply_value rep = Fin 10000000
    /\ required_payouts rep = Fin (10000000 * roi)
    /\ sustainability_ratio rep = Fin (avg * tax / (10000000 * roi))
    /\ (is_sustainable rep = true <-> (10000000 * roi <= avg * tax)%R).
Proof.
  apply (fixed_supply_sustainability More.offline "hex" More.warm
           (Row 0 1 1) [Row 1 3 1]).
  - rewrite (get_token_data_hit _ _ _ _ _ [Row 0 1 1; Row 1 3 1]); [done|].
    apply lookup_singleton_eq.
  - simpl. rewrite lookup_singleton_ne by done. simpl. lra.
Defined.

(** ** Cache keys *)

Lemma append_cons c a b : String c a +:+ b = String c (a +:+ b).
Proof. done. Qed.

Lemma append_nil b : "" +:+ b = b.
Proof. done. Qed.

Lemma append_assoc a b c : (a +:+ b) +:+ c = a +:+ (b +:+ c).
Proof.
  induction a as [|x a IH]; [done|]. by rewrite !append_cons, IH.
Qed.

Lemma has_underscore_app a b :
  has_underscore (a +:+ b) = has_underscore a || has_underscore b.
Proof.
  induction a as [|x a IH]; [done|]. rewrite append_cons. simpl.
  by destruct (Ascii.eqb x underscore).
Qed.

Lemma split_at_last_underscore a1 a2 b1 b2 :
  has_underscore b1 = false -> has_underscore b2 = false ->
  a1 +:+ "_" +:+ b1 = a2 +:+ "_" +:+ b2 ->
  a1 = a2 /\ b1 = b2.
Proof.
  intros H1 H2. revert a2.
  induction a1 as [|x a1 IH]; intros [|y a2]; rewrite ?append_cons, ?append_nil.
  - by intros [= ->].
  - intros [= <- ->]. rewrite has_underscore_app in H1.
    rewrite ?append_cons, ?append_nil in H1. simpl in H1.
    by rewrite orb_true_r in H1.
  - intros [= -> <-]. rewrite has_underscore_app in H2.
    rewrite ?append_cons, ?append_nil in H2. simpl in H2.
    by rewrite orb_true_r in H2.
  - intros [= -> Heq]. destruct (IH a2 Heq) as [-> ->]. done.
Qed.

Lemma pretty_N_go_no_underscore x : forall s,
  has_underscore s = false -> has_underscore (pretty_N_go x s) = false.
Proof.
  induction (N.lt_wf_0 x) as [x _ IH]; intros s Hs.
  assert (x = 0 \/ 0 < x)%N as [->|Hpos] by lia.
  - by rewrite pretty_N_go_0.
  - rewrite pretty_N_go_step by done. apply IH.
    + by apply N.div_lt.
    + simpl. unfold pretty_N_char. by repeat case_match.
Qed.

Lemma pretty_Z_no_underscore (d : Z) : has_underscore (pretty d) = false.
Proof.
  assert (forall n : N, has_underscore (pretty n) = false) as HN.
  { intros n. unfold pretty, pretty_N. case_decide; [done|].
    by apply pretty_N_go_no_underscore. }
  destruct d as [|p|p]; [done|apply HN|].
  change (pretty (Z.neg p)) with ("-" +:+ pretty (N.pos p)).
  rewrite has_underscore_app, HN. done.
Qed.

(** X16: the cache key determines the token, the number of days and the
    currency, as long as the currencies contain no underscore; token
    identifiers may contain any character. *)
Theorem cache_key_inj token1 days1 cur1 token2 days2 cur2 :
  has_underscore cur1 = false -> has_underscore cur2 = false ->
  cache_key token1 days1 cur1 = cache_key token2 days2 cur2 ->
  token1 = token2 /\ days1 = days2 /\ cur1 = cur2.
Proof.
  intros H1 H2. unfold cache_key.
  rewrite <- (append_assoc token1 "_" (pretty days1 +:+ "_" +:+ cur1)).
  rewrite <- (append_assoc (token1 +:+ "_") (pretty days1) ("_" +:+ cur1)).
  rewrite <- (append_assoc token2 "_" (pretty days2 +:+ "_" +:+ cur2)).
  rewrite <- (append_assoc (token2 +:+ "_") (pretty days2) ("_" +:+ cur2)).
  intros [Heq ->]%split_at_last_underscore; [|done..].
  rewrite !append_assoc in Heq.
  apply split_at_last_underscore in Heq as [-> Hd];
    [|apply pretty_Z_no_underscore..].
  by apply (inj pretty) in Hd as ->.
Qed.

Lemma cache_key_inj_witness :
  "gas_money" = "gas_money" /\ 30%Z = 30%Z /\ "usd" = "usd".
Proof.
  apply (cache_key_inj "gas_money" 30 "usd" "gas_money" 30 "usd"); reflexivity.
Defined.

(** X17: with an underscore in the currency two different lookups can share
    a key: the series cached for token [t_d1] over [d2] days is returned,
    without a request, to a lookup of token [t] over [d1] days in the
    currency [d2_c]. *)
Theorem cache_key_alias net t d1 d2 c s df :
  data_cache s !! cache_key (t +:+ "_" +:+ pretty d1) d2 c = Some df ->
  get_token_data net t d1 (pretty d2 +:+ "_" +:+ c) s = (Some df, s).
Proof.
  intros Hhit. apply get_token_data_hit. rewrite <- Hhit. f_equal.
  unfold cache_key. by rewrite !append_assoc.
Qed.

Lemma cache_key_alias_witness :
  get_token_data More.offline "a" 7 "30_usd" Alias.cached
    = (Some [Row 0 1 1], Alias.cached).
Proof.
  apply (cache_key_alias More.offline "a" 7 30 "usd" Alias.cached [Row 0 1 1]).
  apply lookup_singleton_eq.
Defined.

(** ** Configuration *)

(** X18: adding a token puts it in the token list and changes nothing else;
    the tokens that were there keep their places, a list without duplicates
    stays without duplicates, and adding the same token again changes
    nothing. *)
Theorem add_token_list token_id token_name s :
  let s1 := snd (add_token token_id token_name s) in
  token_id ∈ tokens s1
  /\ (exists new, tokens s1 = tokens s ++ new
                  /\ (new = [] \/ new = [token_id]))
  /\ (token_id ∈ tokens s -> s1 = s)
  /\ (NoDup (tokens s) -> NoDup (tokens s1))
  /\ snd (add_token token_id token_name s1) = s1
  /\ wallets s1 = wallets s /\ data_cache s1 = data_cache s
  /\ tax_rates s1 = tax_rates s /\ roi_expectations s1 = roi_expectations s
  /\ requests_sent s1 = requests_sent s.
Proof.
  intros s1. subst s1. unfold add_token. cbn [snd].
  destruct (decide (token_id ∈ tokens s)) as [Hin|Hnot].
  - split_and!; try done.
    + exists []. split; [by rewrite app_nil_r|by left].
    + by rewrite decide_True.
  - cbn [tokens wallets data_cache tax_rates roi_expectations requests_sent].
    split_and!; try done.
    + apply elem_of_app. right. apply list_elem_of_here.
    + exists [token_id]. split; [done|by right].
    + intros Hnd. apply NoDup_app. split_and!; [done| |apply NoDup_singleton].
      intros x Hx ->%list_elem_of_singleton. done.
    + rewrite decide_True; [done|].
      apply elem_of_app. right. apply list_elem_of_here.
Qed.

(** X19: after a wallet has been registered under a name, a wallet check by
    that name requests the transactions of the registered address, whatever
    address is passed along, and labels the summary with the name. *)
Theorem add_wallet_then_check net name address other threshold s :
  name <> "" -> address <> "" ->
  let s1 := snd (add_wallet name address s) in
  let out := check_wallet_activity net (Some name) other threshold s1 in
  wallets s1 !! name = Some address
  /\ snd out = with_requests s1 [txlist_url address]
  /\ (forall sm, fst out = Some sm -> wallet sm = name)
  /\ (forall n, n <> name -> wallets s1 !! n = wallets s !! n).
Proof.
  intros Hname Haddr s1 out.
  assert (wallets s1 !! name = Some address) as Hw by apply lookup_insert_eq.
  assert (resolve_address s1 (Some name) other = Some address) as Hres.
  { unfold resolve_address, truthy. apply String.eqb_neq in Hname.
    by rewrite Hname, Hw. }
  split; [done|]. subst out.
  rewrite (check_wallet_activity_run _ _ _ _ _ address Hres Haddr). cbn [fst snd].
  split; [apply get_pulsechain_wallet_state|]. split.
  - intros sm. destruct (fst (get_pulsechain_wallet net address s1)) as [[|t rest]|];
      try done.
    intros [= <-]. cbn [wallet]. unfold name_or_address, truthy.
    apply String.eqb_neq in Hname. by rewrite Hname.
  - intros n Hn. subst s1. unfold add_wallet. cbn [snd wallets].
    by apply lookup_insert_ne.
Qed.

Lemma add_wallet_then_check_witness :
  let s1 := snd (add_wallet "treasury" "0xd1" Fixture.fresh) in
  let out := check_wallet_activity Ledger.one_incoming (Some "treasury")
               (Some "0xother") 0.05 s1 in
  wallets s1 !! "treasury" = Some "0xd1"
  /\ snd out = with_requests s1 [txlist_url "0xd1"]
  /\ (forall sm, fst out = Some sm -> wallet sm = "treasury")
  /\ (forall n, n <> "treasury" -> wallets s1 !! n = wallets Fixture.fresh !! n).
Proof.
  apply (add_wallet_then_check Ledger.one_incoming "treasury" "0xd1"
           (Some "0xother") 0.05 Fixture.fresh); discriminate.
Defined.

Lemma get_token_data_same_inputs net token_id days cur s s' :
  data_cache s' = data_cache s -> requests_sent s' = requests_sent s ->
  fst (get_token_data net token_id days cur s')
    = fst (get_token_data net token_id days cur s).
Proof.
  intros Hc Hr. destruct s, s'. simpl in Hc, Hr. subst.
  unfold get_token_data. run.
  destruct (_ !! _); [done|]. simpl.
  destruct (net _ _) as [|code body]; [done|].
  case_decide; [|done]. by destruct body.
Qed.

(** X20: after the tax rate and the ROI expectation of a token have been
    set, its sustainability report carries these two values; the data it is
    computed from and the rates of the other tokens are not affected. *)
Theorem set_rates_then_check net token_id rate roi estimate_supply s :
  let s1 := snd (set_token_roi_expectation token_id roi
                   (snd (set_token_tax_rate token_id rate s))) in
  tax_rates s1 !! token_id = Some rate
  /\ roi_expectations s1 !! token_id = Some roi
  /\ (forall t, t <> token_id ->
        tax_rates s1 !! t = tax_rates s !! t
        /\ roi_expectations s1 !! t = roi_expectations s !! t)
  /\ fst (get_token_data net token_id 30 "usd" s1)
     = fst (get_token_data net token_id 30 "usd" s)
  /\ (forall rep,
        fst (check_token_sustainability net token_id estimate_supply s1) = Some rep ->
        tax_rate rep = Fin rate /\ daily_roi rep = Fin roi)
  /\ (is_Some (fst (check_token_sustainability net token_id estimate_supply s1))
      <-> is_Some (fst (check_token_sustainability net token_id estimate_supply s))).
Proof.
  intros s1.
  assert (tax_rates s1 !! token_id = Some rate) as Htax by apply lookup_insert_eq.
  assert (roi_expectations s1 !! token_id = Some roi) as Hroi by apply lookup_insert_eq.
  assert (fst (get_token_data net token_id 30 "usd" s1)
          = fst (get_token_data net token_id 30 "usd" s)) as Hdata
    by (by apply get_token_data_same_inputs).
  split_and!; try done.
  - intros t Ht. subst s1. cbn. by rewrite !lookup_insert_ne.
  - intros rep. rewrite check_token_sustainability_run. cbn [fst].
    pose proof (get_token_data_config net token_id 30 "usd" s1) as (_ & _ & Kt & Kr).
    cbn zeta in Kt, Kr.
    destruct (fst (get_token_data net token_id 30 "usd" s1)) as [[|r df]|]; try done.
    cbn [mbind option_bind token_sustainability]. rewrite Kt, Kr, Htax, Hroi.
    by intros [= <-].
  - rewrite !check_token_sustainability_run. cbn [fst]. rewrite Hdata.
    by destruct (fst (get_token_data net token_id 30 "usd" s)) as [[|r df]|].
Qed.

(** ** Tax distribution *)










Lemma distribution_loop_run net wallets : forall acc s,
  let out := distribution_loop net wallets acc s in
  snd out = with_requests s (map (fun w => txlist_url (wi_address w)) wallets)
  /\ (forall n entry, fst out !! n = Some entry ->
        acc !! n = Some entry
        \/ exists w txs, w ∈ wallets /\ wi_name w = n
                         /\ collected (wi_address w) txs = Some entry).
Proof.
  induction wallets as [|w rest IH]; intros acc s.
  - simpl. split; [|by left]. unfold with_requests. rewrite app_nil_r. by destruct s.
  - cbn zeta. simpl distribution_loop. unfold bind.
    pose proof (get_pulsechain_wallet_state net (wi_address w) s) as Hst.
    destruct (get_pulsechain_wallet net (wi_address w) s) as [txs s1].
    cbn [snd] in Hst. subst s1.
    assert (forall acc',
      (forall n entry, acc' !! n = Some entry ->
         acc !! n = Some entry
         \/ exists w' txs', w' ∈ w :: rest /\ wi_name w' = n
                            /\ collected (wi_address w') txs' = Some entry) ->
      let out := distribution_loop net rest acc'
                   (with_requests s [txlist_url (wi_address w)]) in
      snd out = with_requests s
                  (map (fun w => txlist_url (wi_address w)) (w :: rest))
      /\ (forall n entry, fst out !! n = Some entry ->
            acc !! n = Some entry
            \/ exists w' txs', w' ∈ w :: rest /\ wi_name w' = n
                               /\ collected (wi_address w') txs' = Some entry))
      as Hstep.
    { intros acc' Hacc'. cbn zeta.
      destruct (IH acc' (with_requests s [txlist_url (wi_address w)])) as [Hs He].
      split; [by rewrite Hs, with_requests_app|].
      intros n entry [Hn|(w' & txs' & Hin & Hw & Hc)]%He; [by apply Hacc'|].
      right. exists w', txs'. split; [by apply list_elem_of_further|done]. }
    destruct txs as [txs|]; [|apply Hstep; by left].
    destruct (collected (wi_address w) txs) as [entry|] eqn:Hc;
      [|apply Hstep; by left].
    apply Hstep. intros n e. destruct (decide (wi_name w = n)) as [<-|Hne].
    + rewrite lookup_insert_eq. intros [= <-]. right. exists w, txs.
      split; [apply list_elem_of_here|done].
    + rewrite lookup_insert_ne by done. by left.
Qed.

(** X21: the tax distribution of a token without project wallets is nothing,
    and the monitor is left as it was.  Otherwise there is a report: it
    names the token and its tax rate (0.05 when none is set), exactly one
    request was sent per project wallet, in the order of the wallets, and
    the distribution has entries only under names of these wallets. *)
Theorem check_token_tax_distribution_run net token_id f :
  let out := check_token_tax_distribution net token_id f in
  match project_wallets f !! token_id with
  | None | Some [] => out = (None, f)
  | Some wallets =>
      exists rep,
        fst out = Some rep
        /\ tr_token rep = token_id
        /\ tr_tax_rate rep = default 0.05%R (tax_rates (base f) !! token_id)
        /\ base (snd out)
           = with_requests (base f)
               (map (fun w => txlist_url (wi_address w)) wallets)
        /\ project_wallets (snd out) = project_wallets f
        /\ (forall n, is_Some (distribution rep !! n) ->
              exists w, w ∈ wallets /\ wi_name w = n)
  end.
Proof.
  intros out. subst out. unfold check_token_tax_distribution.
  destruct (project_wallets f !! token_id) as [[|w ws]|]; try done.
  pose proof (distribution_loop_run net (w :: ws) ∅ (base f)) as H.
  cbn zeta in H. destruct (distribution_loop net (w :: ws) ∅ (base f)) as [d s'].
  cbn [fst snd] in *. destruct H as [Hs He].
  eexists. split; [reflexivity|]. cbn [tr_token tr_tax_rate distribution base
    project_wallets]. rewrite Hs. split_and!; try done.
  intros n [entry [Hn|(w' & txs & Hin & Hw & _)]%He]; [done|]. by exists w'.
Qed.







(** ** Token relationships *)

Lemma add_rewards_lookup token_id name rewards : forall (rel : gmap string (list (string * string))) r,
  add_rewards token_id name rewards rel !! r =
    match List.filter (String.eqb r) rewards with
    | [] => rel !! r
    | l => Some (default [] (rel !! r) ++ map (fun _ => (token_id, name)) l)
    end.
Proof.
  unfold add_rewards, relationships.
  induction rewards as [|x rewards IH]; intros rel r; [done|].
  simpl foldl. rewrite IH. simpl List.filter.
  destruct (String.eqb_spec r x) as [<-|Hne].
  - rewrite lookup_insert_eq. simpl.
    destruct (List.filter (String.eqb r) rewards) as [|y l]; simpl.
    + done.
    + by rewrite <- app_assoc.
  - rewrite lookup_insert_ne by done. done.
Qed.

Lemma rewarded_lookup (table : token_table) : forall (rel : gmap string (list (string * string))) r,
  foldl (fun rel entry =>
           match ti_rewards (snd entry) with
           | Some rewards => add_rewards (fst entry) (ti_name (snd entry)) rewards rel
           | None => rel
           end) rel table !! r =
    match rewarders table r with
    | [] => rel !! r
    | l => Some (default [] (rel !! r) ++ l)
    end.
Proof.
  induction table as [|[t info] table IH]; intros rel r; [done|].
  simpl foldl. rewrite IH. unfold rewarders. simpl flat_map.
  fold (rewarders table r).
  destruct (ti_rewards info) as [rewards|]; simpl.
  - rewrite add_rewards_lookup.
    destruct (List.filter (String.eqb r) rewards) as [|y l]; simpl; [done|].
    destruct (rewarders table r); simpl; [by rewrite app_nil_r|].
    by rewrite <- app_assoc.
  - done.
Qed.

Lemma fill_missing_lookup (table : token_table) : forall (rel : gmap string (list (string * string))) r,
  foldl (fun rel entry =>
           match rel !! fst entry with
           | Some _ => rel
           | None => <[fst entry := []]> rel
           end) rel table !! r =
    match rel !! r with
    | Some l => Some l
    | None => if decide (r ∈ map fst table) then Some [] else None
    end.
Proof.
  induction table as [|[t info] table IH]; intros rel r.
  - simpl foldl. destruct (rel !! r); [done|].
    case_decide as H; [by apply elem_of_nil in H|done].
  - simpl foldl. rewrite IH. cbn [fst map].
    destruct (rel !! t) as [lt|] eqn:Ht.
    + destruct (rel !! r) as [l|] eqn:Hr; [done|].
      assert (r <> t) as Hne by congruence.
      destruct (decide (r ∈ map fst table)) as [Hin|Hnot].
      * rewrite decide_True; [done|]. by apply list_elem_of_further.
      * rewrite decide_False; [done|]. intros [?|?]%elem_of_cons; done.
    + destruct (decide (t = r)) as [->|Hne].
      * rewrite lookup_insert_eq, Ht. rewrite decide_True; [done|].
        apply list_elem_of_here.
      * rewrite lookup_insert_ne by done. destruct (rel !! r); [done|].
        destruct (decide (r ∈ map fst table)) as [Hin|Hnot].
        -- rewrite decide_True; [done|]. by apply list_elem_of_further.
        -- rewrite decide_False; [done|]. intros [?|?]%elem_of_cons; done.
Qed.

(** X23: the relationship table has a key for every token of the table and
    for every reward that a token names, and for no other string.  Under a
    key it lists the tokens that name it as a reward, in the order of the
    table, with the display names from the table; a token that nobody
    rewards has the empty list. *)
Theorem check_token_relationships_lookup table r :
  check_token_relationships table !! r =
    match rewarders table r with
    | [] => if decide (r ∈ map fst table) then Some [] else None
    | l => Some l
    end.
Proof.
  unfold check_token_relationships, relationships.
  rewrite fill_missing_lookup, rewarded_lookup, lookup_empty.
  by destruct (rewarders table r).
Qed.

(** In the ecosystem as configured: Finvesta is rewarded by Missor, and PLS,
    which is no token of the table, by Beast, Raise it up, Remember and Gas
    Money. *)
Example finvesta_rewarded_by :
  check_token_relationships FINVESTA_TOKENS !! "finvesta"
    = Some [("missor", "Missor")]
  /\ check_token_relationships FINVESTA_TOKENS !! "pls"
     = Some [("beast", "Beast"); ("raise_it_up", "Raise it up");
             ("remember", "Remember"); ("gas_money", "Gas Money")]
  /\ check_token_relationships FINVESTA_TOKENS !! "beast" = Some []
  /\ check_token_relationships FINVESTA_TOKENS !! "hex" = None.
Proof.
  unfold check_token_relationships, relationships.
  rewrite !fill_missing_lookup, !rewarded_lookup, !lookup_empty.
  split_and!; reflexivity.
Qed.

(** X24: adding a project wallet appends it to the project wallets of the
    token, leaves the project wallets of the other tokens alone, and
    registers its address in the wallet table under the name
    token_wallet.  From then on the tax distribution of the token gives a
    report, and it requests the new wallet last. *)
Theorem add_project_wallet_then_distribution net token_id wallet_name wallet_address f :
  let known := default [] (project_wallets f !! token_id) in
  let f1 := snd (add_project_wallet token_id wallet_name wallet_address f) in
  let out := check_token_tax_distribution net token_id f1 in
  project_wallets f1 !! token_id
    = Some (known ++ [WalletInfo wallet_name wallet_address])
  /\ (forall t, t <> token_id -> project_wallets f1 !! t = project_wallets f !! t)
  /\ wallets (base f1) !! (token_id +:+ "_" +:+ wallet_name) = Some wallet_address
  /\ tokens (base f1) = tokens (base f)
  /\ is_Some (fst out)
  /\ requests_sent (base (snd out))
     = requests_sent (base f)
       ++ map (fun w => txlist_url (wi_address w)) known
       ++ [txlist_url wallet_address].
Proof.
  intros known f1 out.
  assert (project_wallets f1 !! token_id
          = Some (known ++ [WalletInfo wallet_name wallet_address])) as Hpw
    by apply lookup_insert_eq.
  split_and!; try done.
  - intros t Ht. subst f1. unfold add_project_wallet. cbn [snd project_wallets].
    by apply lookup_insert_ne.
  - apply lookup_insert_eq.
  - subst out. unfold check_token_tax_distribution. rewrite Hpw.
    destruct (known ++ [WalletInfo wallet_name wallet_address]) as [|w ws] eqn:Hk.
    { by destruct known. }
    by destruct (distribution_loop net (w :: ws) ∅ (base f1)).
  - subst out. unfold check_token_tax_distribution. rewrite Hpw.
    destruct (known ++ [WalletInfo wallet_name wallet_address]) as [|w ws] eqn:Hk.
    { by destruct known. }
    pose proof (distribution_loop_run net (w :: ws) ∅ (base f1)) as H.
    cbn zeta in H. destruct (distribution_loop net (w :: ws) ∅ (base f1)) as [d s'].
    cbn [fst snd base] in *. destruct H as [-> _].
    rewrite <- Hk, map_app. done.
Qed.

(** ** Configuration from the token table *)








(** ** Plots and the analysis of one token *)

Lemma token_health_is_Some token_id df h :
  token_health token_id df = Some h -> df <> [].
Proof. by destruct df. Qed.

Lemma plot_token_data_cached net token_id save_path s df :
  data_cache s !! cache_key token_id 30 "usd" = Some df ->
  df <> [] ->
  plot_token_data net token_id save_path s
    = (if truthy save_path then save_path else None, s).
Proof.
  intros Hhit Hdf. unfold plot_token_data, bind.
  rewrite (get_token_data_hit _ _ _ _ _ _ Hhit). by destruct df.
Qed.

Lemma analyze_token_some net table token_id cs gp s info df h :
  table_get table token_id = Some info ->
  get_token_data net token_id 30 "usd" s = (Some df, snd (get_token_data net token_id 30 "usd" s)) ->
  token_health token_id df = Some h ->
  analyze_token net table token_id cs gp s
    = (Some (TokenAnalysis h
               (if cs
                then token_sustainability (snd (get_token_data net token_id 30 "usd" s))
                       token_id true df
                else None)
               (if gp then Some (plot_path token_id) else None)),
       snd (get_token_data net token_id 30 "usd" s)).
Proof.
  intros Hinfo Hdata Hh. unfold analyze_token. rewrite Hinfo.
  unfold bind at 1. rewrite analyze_token_health_run, Hdata. cbn [fst snd mbind option_bind].
  rewrite Hh.
  set (s1 := snd (get_token_data net token_id 30 "usd" s)) in *.
  pose proof (get_token_data_cached _ _ _ _ _ _ _ Hdata) as Hhit.
  pose proof (token_health_is_Some _ _ _ Hh) as Hdf.
  assert (check_token_sustainability net token_id true s1
          = (token_sustainability s1 token_id true df, s1)) as Hsus.
  { rewrite check_token_sustainability_run. cbn zeta.
    by rewrite (get_token_data_hit _ _ _ _ _ _ Hhit). }
  unfold bind. destruct cs.
  - rewrite Hsus. destruct gp; [|done].
    by rewrite (plot_token_data_cached _ _ _ _ _ Hhit Hdf).
  - unfold ret. destruct gp; [|done].
    by rewrite (plot_token_data_cached _ _ _ _ _ Hhit Hdf).
Qed.

Lemma analyze_token_none net table token_id cs gp s info :
  table_get table token_id = Some info ->
  fst (analyze_token_health net token_id s) = None ->
  analyze_token net table token_id cs gp s
  = (None,
     if cs
     then snd (check_token_sustainability net token_id true
                 (snd (analyze_token_health net token_id s)))
     else snd (analyze_token_health net token_id s)).
Proof.
  intros Hinfo Hh. unfold analyze_token. rewrite Hinfo. unfold bind.
  destruct (analyze_token_health net token_id s) as [o s1]. cbn [fst snd] in *.
  subst o. destruct cs.
  - by destruct (check_token_sustainability net token_id true s1).
  - done.
Qed.

(** X26: the analysis of one token.  A token that is not in the table gives
    no result and no request.  Otherwise there is a result exactly when the
    health analysis gives a report, which is then the health part of the
    result; the state is the one the health analysis leaves, so one request
    at most is sent; the sustainability is attached exactly when it was
    asked for, the plot path exactly when a plot was asked for, and the plot
    of the token is then drawn from the cache.  In all cases at most two
    requests are sent. *)
Theorem analyze_token_result net table token_id cs gp s :
  let out := analyze_token net table token_id cs gp s in
  let health := analyze_token_health net token_id s in
  (table_get table token_id = None -> out = (None, s))
  /\ extends_by 2 s (snd out)
  /\ (is_Some (fst out)
      <-> is_Some (table_get table token_id) /\ is_Some (fst health))
  /\ forall a, fst out = Some a ->
       fst health = Some (ta_health a)
       /\ snd out = snd health
       /\ (is_Some (ta_sustainability a) <-> cs = true)
       /\ ta_plot a = (if gp then Some (plot_path token_id) else None)
       /\ plot_token_data net token_id (Some (plot_path token_id)) (snd out)
          = (Some (plot_path token_id), snd out).
Proof.
  intros out health.
  destruct (table_get table token_id) as [info|] eqn:Hinfo.
  2:{ assert (out = (None, s)) as Hout.
      { subst out. unfold analyze_token. by rewrite Hinfo. }
      rewrite Hout. cbn [fst snd]. split_and!; try done.
      - apply extends_by_refl.
      - split; [by intros [? ?] | by intros [[? ?] _]]. }
  destruct (fst health) as [h|] eqn:Hh.
  - subst health. rewrite analyze_token_health_run in Hh |- *. cbn [fst snd] in *.
    destruct (get_token_data net token_id 30 "usd" s) as [o s1] eqn:Hdata.
    cbn [fst snd] in *. destruct o as [df|]; [|done]. cbn in Hh.
    assert (get_token_data net token_id 30 "usd" s
            = (Some df, snd (get_token_data net token_id 30 "usd" s))) as Hdata'
      by (by rewrite Hdata).
    pose proof (analyze_token_some net table token_id cs gp s info df h
                  Hinfo Hdata' Hh) as Hout.
    rewrite Hdata in Hout. cbn [snd] in Hout. subst out. rewrite Hout.
    cbn [fst snd].
    pose proof (get_token_data_extends net token_id 30 "usd" s) as Hext.
    rewrite Hdata in Hext. cbn [snd] in Hext.
    pose proof (get_token_data_cached _ _ _ _ _ _ _ Hdata) as Hhit.
    pose proof (token_health_is_Some _ _ _ Hh) as Hdf.
    split_and!; try done.
    + eapply extends_by_weaken; [|exact Hext]. lia.
    + intros a [= <-]. cbn. split_and!; try done.
      * destruct cs; [|split; [by intros [? ?] | done]].
        split; [done | intros _]. destruct df; [done|]. by eexists.
      * by rewrite (plot_token_data_cached _ _ _ _ _ Hhit Hdf).
  - subst out. rewrite (analyze_token_none net table token_id cs gp s info Hinfo Hh).
    cbn [fst snd]. split_and!; try done.
    + destruct cs.
      * replace 2%nat with (1 + 1)%nat by done.
        eapply extends_by_trans; [apply analyze_token_health_extends|].
        apply check_token_sustainability_extends.
      * eapply extends_by_weaken; [|apply analyze_token_health_extends]. lia.
    + split; [by intros [? ?] | by intros [_ [? ?]]].
Qed.

(** ** The analysis of the whole table *)

Lemma plot_token_data_extends net token_id save_path s :
  extends_by 1 s (snd (plot_token_data net token_id save_path s)).
Proof.
  unfold plot_token_data, bind.
  pose proof (get_token_data_extends net token_id 30 "usd" s) as H.
  destruct (get_token_data net token_id 30 "usd" s) as [[[|r df]|] s1]; exact H.
Qed.

Lemma plot_loop_run net token_ids reports : forall plots s,
  let out := plot_loop net token_ids reports plots s in
  (forall t, fst out !! t
     = if decide (t ∈ token_ids /\ is_Some (reports !! t))
       then Some (plot_path t) else plots !! t)
  /\ extends_by (length token_ids) s (snd out).
Proof.
  induction token_ids as [|t0 rest IH]; intros plots s.
  - cbn. split; [|apply extends_by_refl].
    intros t. rewrite decide_False; [done|]. intros [H _]. by apply elem_of_nil in H.
  - cbn [plot_loop]. unfold bind.
    pose proof (plot_token_data_extends net t0 (Some (plot_path t0)) s) as Hext.
    destruct (plot_token_data net t0 (Some (plot_path t0)) s) as [saved s1].
    cbn [snd] in Hext.
    destruct (IH (match reports !! t0 with
                  | Some _ => <[t0 := plot_path t0]> plots
                  | None => plots
                  end) s1) as [Hl He].
    cbn zeta. split.
    + intros t. rewrite Hl. destruct (decide (t = t0)) as [->|Hne].
      * destruct (reports !! t0) as [h|] eqn:Hr.
        -- rewrite lookup_insert_eq.
           rewrite (decide_True (P := t0 ∈ t0 :: rest /\ _))
             by (split; [left | by eexists]).
           by case_decide.
        -- repeat case_decide; try done.
           ++ destruct H as [_ [? ?]]. done.
           ++ destruct H0 as [_ [? ?]]. done.
      * assert ((match reports !! t0 with
                 | Some _ => <[t0 := plot_path t0]> plots
                 | None => plots
                 end) !! t = plots !! t) as ->.
        { destruct (reports !! t0); [by rewrite lookup_insert_ne|done]. }
        repeat case_decide; try done.
        -- exfalso. apply H0. destruct H as [H ?]. split; [by right|done].
        -- exfalso. apply H. destruct H0 as [H0 ?]. split; [|done].
           apply elem_of_cons in H0 as [?|?]; done.
    + cbn [length]. replace (S (length rest)) with (1 + length rest)%nat by done.
      eapply extends_by_trans; [exact Hext | exact He].
Qed.

Lemma ecosystem_reports_known net token_ids s t h :
  eco_tokens (fst (analyze_multi_token_ecosystem net (Some token_ids) s)) !! t
    = Some h ->
  t ∈ token_ids.
Proof.
  unfold analyze_multi_token_ecosystem, bind, get_self, ret.
  change (default (tokens s) (Some token_ids)) with token_ids.
  pose proof (ecosystem_loop_health net token_ids (Acc ∅ (Fin 0) [] []) s) as H.
  cbn zeta in H. destruct H as (_ & _ & Ht).
  destruct (ecosystem_loop net token_ids (Acc ∅ (Fin 0) [] []) s) as [a s1].
  cbn [fst snd eco_tokens acc_tokens] in *. rewrite Ht. intros Hl.
  apply foldl_insert_lookup in Hl as [Hin|Hl]; [|by rewrite lookup_empty in Hl].
  apply reported_elem in Hin.
  by apply (health_results_fields net token_ids s t h) in Hin as [? _].
Qed.

(** X27: the analysis of the whole table returns the report of the
    ecosystem analysis of the tokens of the table; a plot path is recorded
    for exactly the tokens that have a health report in it, and it is
    plots/token_analysis.png; in all at most three requests per token of the
    table are sent, and the configuration of the monitor is unchanged. *)
Theorem analyze_ecosystem_plots net table s :
  let out := analyze_ecosystem net table s in
  let eco := fst (analyze_multi_token_ecosystem net (Some (map fst table)) s) in
  fst (fst out) = eco
  /\ (forall t, snd (fst out) !! t
        = match eco_tokens eco !! t with
          | Some _ => Some (plot_path t)
          | None => None
          end)
  /\ extends_by (3 * length table) s (snd out).
Proof.
  intros out eco. subst out. unfold analyze_ecosystem, bind, ret.
  pose proof (ecosystem_reports_known net (map fst table) s) as Hknown.
  fold eco in Hknown.
  assert (extends_by (2 * length table) s
            (snd (analyze_multi_token_ecosystem net (Some (map fst table)) s)))
    as Hext.
  { unfold analyze_multi_token_ecosystem, bind, get_self, ret.
    change (default (tokens s) (Some (map fst table))) with (map fst table).
    pose proof (ecosystem_loop_extends net (map fst table) (Acc ∅ (Fin 0) [] []) s)
      as H.
    rewrite length_map in H.
    by destruct (ecosystem_loop net (map fst table) (Acc ∅ (Fin 0) [] []) s). }
  subst eco.
  destruct (analyze_multi_token_ecosystem net (Some (map fst table)) s)
    as [ecosystem s1].
  cbn [fst snd] in *.
  destruct (plot_loop_run net (map fst table) (eco_tokens ecosystem) ∅ s1)
    as [Hl He].
  destruct (plot_loop net (map fst table) (eco_tokens ecosystem) ∅ s1)
    as [plots s2].
  cbn [fst snd] in *. rewrite length_map in He. split_and!; [done| |].
  - intros t. rewrite Hl, lookup_empty.
    destruct (eco_tokens ecosystem !! t) as [h|] eqn:Hr.
    + rewrite decide_True; [done|]. split; [by eapply Hknown|by eexists].
    + rewrite decide_False; [done|]. by intros [_ [? ?]].
  - replace (3 * length table)%nat with (2 * length table + length table)%nat by lia.
    eapply extends_by_trans; [exact Hext | exact He].
Qed.
